(** * GeoTIFF to web tiles generator: a shallow embedding of
      [scripts/generate_tiles.py] and the properties of its specification.

    Modelling conventions.

    - A Python [float] is idealised as a real number of [R]: rounding,
      overflow and the special values [inf] and [nan] are outside the model.
      The exceptions that the float operations of the script raise on
      finite arguments ([ZeroDivisionError], [ValueError] of [math.log2])
      are modelled.
    - A Python [int] is an integer of [Z].
    - Code that can raise returns a [result]; code that prints, creates
      directories or writes files runs in the monad [M], which threads the
      [world] and keeps it when an exception is raised.
    - The external programs ([gdalinfo], [gdal2tiles.py]), the JSON parser,
      the directory listing and the float formatters are fields of an
      environment [Env]: every theorem holds for all of them. *)

From Stdlib Require Import ZArith Reals Lra Lia List String Ascii Bool.
From Stdlib Require Import DecimalString.
Import ListNotations.

Local Open Scope string_scope.
Local Open Scope Z_scope.

(** ** Python exceptions and results *)

Inductive exn : Type :=
| CalledProcessError (msg : string)   (* subprocess.run(..., check=True), exit status <> 0 *)
| FileNotFoundError                   (* subprocess.run of a program that is not installed *)
| JSONDecodeError (msg : string)
| KeyError (key : string)
| IndexError
| ZeroDivisionError
| ValueError                          (* math domain error *)
| OSError                             (* os.makedirs / open(..., 'w') *)
| SystemExit (code : Z).

Inductive result (A : Type) : Type :=
| Ok (a : A)
| Raise (e : exn).

Arguments Ok {A} a.
Arguments Raise {A} e.

Definition rbind {A B} (r : result A) (k : A -> result B) : result B :=
  match r with
  | Ok a => k a
  | Raise e => Raise e
  end.

Declare Scope result_scope.
Delimit Scope result_scope with result.
Notation "x <- r ;; k" := (rbind r (fun x => k))
  (at level 100, r at next level, right associativity) : result_scope.

(** ** Floats *)

(** [a / b] on floats. *)
Definition float_truediv (a b : R) : result R :=
  if Req_dec_T b 0 then Raise ZeroDivisionError else Ok (a / b)%R.

(** The binary logarithm of a positive real. *)
Definition log2 (x : R) : R := (ln x / ln 2)%R.

(** [math.log2]. *)
Definition math_log2 (x : R) : result R :=
  if Rlt_dec 0 x then Ok (log2 x) else Raise ValueError.

(** [int(x)] on a float: truncation towards zero. *)
Definition py_int (x : R) : Z :=
  if Rle_dec 0 x then Zfloor x else Zceil x.

(** ** Zoom range estimator *)

Definition meters_per_pixel_zoom0 : R := 156543.03392804097.

(** The local variable [optimal_zoom] of [calculate_zoom_levels]. *)
Definition optimal_zoom (pixel_size : R) : result R :=
  (q <- float_truediv meters_per_pixel_zoom0 (Rabs pixel_size) ;;
   math_log2 q)%result.

Definition calculate_zoom_levels (pixel_size : R) (image_width : Z)
  : result (Z * Z) :=
  (q <- float_truediv meters_per_pixel_zoom0 (Rabs pixel_size) ;;
   optimal_zoom <- math_log2 q ;;
   let calculated_min := Z.max 1 (py_int optimal_zoom - 8) in
   let calculated_max := Z.min 22 (py_int optimal_zoom + 4) in
   let min_zoom := Z.min calculated_min calculated_max in
   let max_zoom := Z.max calculated_min calculated_max in
   let '(min_zoom, max_zoom) :=
     if 18 <? min_zoom then (10, 22) else (min_zoom, max_zoom) in
   Ok (min_zoom, max_zoom))%result.

(** The integer part of the estimator: what it returns once
    [int(optimal_zoom)] is known. *)
Definition zoom_range_of (z : Z) : Z * Z :=
  let calculated_min := Z.max 1 (z - 8) in
  let calculated_max := Z.min 22 (z + 4) in
  let min_zoom := Z.min calculated_min calculated_max in
  let max_zoom := Z.max calculated_min calculated_max in
  if 18 <? min_zoom then (10, 22) else (min_zoom, max_zoom).

(** ** The world, and the monad of the effectful code *)

(** What the script leaves behind: the lines it printed (oldest first), the
    directories it asked [os.makedirs] for and the files it wrote (newest
    first). The tiles written by [gdal2tiles.py] itself are not part of it. *)
Record world : Type := mkWorld {
  stdout : list string;
  dirs : list string;
  files : list (string * string)
}.

Definition M (A : Type) : Type := world -> result A * world.

Definition ret {A} (a : A) : M A := fun w => (Ok a, w).

Definition bind {A B} (m : M A) (k : A -> M B) : M B :=
  fun w => match m w with
           | (Ok a, w') => k a w'
           | (Raise e, w') => (Raise e, w')
           end.

Definition raise {A} (e : exn) : M A := fun w => (Raise e, w).

Definition lift {A} (r : result A) : M A := fun w => (r, w).

(** [try: body except ...: handler]; the handler answers [None] for an
    exception that no [except] clause names. *)
Definition try_except {A} (body : M A) (handler : exn -> option (M A)) : M A :=
  fun w => match body w with
           | (Ok a, w') => (Ok a, w')
           | (Raise e, w') =>
               match handler e with
               | Some h => h w'
               | None => (Raise e, w')
               end
           end.

Declare Scope M_scope.
Delimit Scope M_scope with M.
Notation "x <- m ;; k" := (bind m (fun x => k))
  (at level 100, m at next level, right associativity) : M_scope.
Notation "' pat <- m ;; k" := (bind m (fun x => let 'pat := x in k))
  (at level 100, pat pattern, m at next level, right associativity) : M_scope.
Notation "m ;; k" := (bind m (fun _ => k))
  (at level 100, right associativity) : M_scope.

Definition print (line : string) : M unit :=
  fun w => (Ok tt, mkWorld (stdout w ++ [line]) (dirs w) (files w)).

(** [extend w out ds fs] is [w] after printing [out], creating the
    directories [ds] and writing the files [fs]. *)
Definition extend (w : world) (out ds : list string) (fs : list (string * string)) : world :=
  mkWorld (stdout w ++ out) (ds ++ dirs w) (fs ++ files w).

(** A program is uniform when its result and what it adds to the world do
    not depend on the world it starts from. *)
Definition uniform {A} (m : M A) : Prop :=
  exists r out ds fs, forall w, m w = (r, extend w out ds fs).

(** The status the interpreter exits with. *)
Definition exit_status {A} (r : result A) : Z :=
  match r with
  | Ok _ => 0
  | Raise (SystemExit code) => code
  | Raise _ => 1
  end.

(** The content of a file, as last written. *)
Fixpoint read_file (path : string) (fs : list (string * string)) : option string :=
  match fs with
  | [] => None
  | (p, content) :: fs' => if String.eqb p path then Some content else read_file path fs'
  end.

(** ** Strings and paths *)

Definition str_of_Z (z : Z) : string := NilZero.string_of_int (Z.to_int z).
Definition str_of_nat (n : nat) : string := NilZero.string_of_uint (Nat.to_uint n).

Fixpoint string_repeat (s : string) (n : nat) : string :=
  match n with
  | O => ""
  | S n' => s ++ string_repeat s n'
  end.

(** [s.endswith(suffix)]: [s] or one of its tails is [suffix]. *)
Fixpoint endswith (s suffix : string) : bool :=
  String.eqb s suffix
  || match s with
     | EmptyString => false
     | String _ rest => endswith rest suffix
     end.

Definition startswith (s pre : string) : bool := String.prefix pre s.

(** [os.path.join] (POSIX). *)
Definition os_path_join (a b : string) : string :=
  if startswith b "/" then b
  else if String.eqb a "" || endswith a "/" then a ++ b
  else a ++ "/" ++ b.

(** [name.rfind('.')]. *)
Fixpoint rfind_dot (name : string) : option nat :=
  match name with
  | EmptyString => None
  | String c rest =>
      match rfind_dot rest with
      | Some i => Some (S i)
      | None => if Ascii.eqb c "." then Some O else None
      end
  end.

(** [PurePath.stem] of a file name: the name without its last suffix. *)
Definition stem (name : string) : string :=
  match rfind_dot name with
  | Some i =>
      if (0 <? i)%nat && (i <? String.length name - 1)%nat
      then substring 0 i name else name
  | None => name
  end.

(** ** Data *)

Record bounds : Type := mkBounds {
  west : R;
  south : R;
  east : R;
  north : R
}.

(** The document printed by [gdalinfo -json], as far as the script reads
    it: a key may be absent and an array may be short. *)
Record corner_coordinates : Type := mkCorners {
  lowerLeft : option (list R);
  upperRight : option (list R)
}.

Record gdalinfo_json : Type := mkInfo {
  cornerCoordinates : option corner_coordinates;
  size : option (list Z);
  geoTransform : option (list R)
}.

(** One value of [ortho_configs]. *)
Record ortho_config : Type := mkConfig {
  cfg_bounds : option bounds;
  cfg_min_zoom : option Z;
  cfg_max_zoom : option Z;
  cfg_source_file : string
}.

(** A Python [dict] with string keys: iteration follows the order of
    first insertion, and assigning to a key that is present replaces its
    value in place. *)
Definition dict (V : Type) : Type := list (string * V).

Fixpoint dict_set {V} (d : dict V) (k : string) (v : V) : dict V :=
  match d with
  | [] => [(k, v)]
  | (k', v') :: d' =>
      if String.eqb k' k then (k, v) :: d' else (k', v') :: dict_set d' k v
  end.

Fixpoint dict_get {V} (d : dict V) (k : string) : option V :=
  match d with
  | [] => None
  | (k', v') :: d' => if String.eqb k' k then Some v' else dict_get d' k
  end.

(** [del d[k]]. *)
Definition dict_remove {V} (d : dict V) (k : string) : dict V :=
  filter (fun kv => negb (String.eqb (fst kv) k)) d.

Definition dict_values {V} (d : dict V) : list V := map snd d.
Definition dict_keys {V} (d : dict V) : list string := map fst d.

(** [d[key]] on a parsed JSON object and [a[i]] on a list. *)
Definition getitem {A} (key : string) (field : option A) : result A :=
  match field with
  | Some a => Ok a
  | None => Raise (KeyError key)
  end.

Definition list_getitem {A} (l : list A) (i : nat) : result A :=
  match nth_error l i with
  | Some a => Ok a
  | None => Raise IndexError
  end.

(** ** The environment of a run *)

Inductive process_outcome : Type :=
| Completed (out : string)   (* exit status 0, with the captured output *)
| Failed (msg : string)      (* another exit status; [msg] is [str(e)] *)
| NotFound.                  (* there is no such program *)

Record Env : Type := mkEnv {
  subprocess_run : list string -> process_outcome;
  json_loads : string -> string + gdalinfo_json;  (* [inl msg]: JSONDecodeError *)
  listdir : string -> list string;                (* entry names, in scan order *)
  makedirs_ok : string -> bool;
  open_ok : string -> bool;
  float_repr : R -> string;                       (* [repr(x)] *)
  float_6f : R -> string;                         (* [f"{x:.6f}"] *)
  project_dir : string                            (* [Path(__file__).parent.parent] *)
}.

Section Program.

Variable env : Env.

(** [subprocess.run(cmd, ..., check=True)]. *)
Definition run_checked (cmd : list string) : M string :=
  match subprocess_run env cmd with
  | Completed out => ret out
  | Failed msg => raise (CalledProcessError msg)
  | NotFound => raise FileNotFoundError
  end.

(** [os.makedirs(path, exist_ok=True)]. *)
Definition os_makedirs (path : string) : M unit :=
  fun w =>
    if makedirs_ok env path
    then (Ok tt, mkWorld (stdout w) (path :: dirs w) (files w))
    else (Raise OSError, w).

(** [with open(path, 'w') as f: f.write(content)]. *)
Definition write_file (path content : string) : M unit :=
  fun w =>
    if open_ok env path
    then (Ok tt, mkWorld (stdout w) (dirs w) ((path, content) :: files w))
    else (Raise OSError, w).

(** [directory.glob('*' + suffix)], as file names. *)
Definition glob (directory suffix : string) : list string :=
  filter (fun name => endswith name suffix) (listdir env directory).

(** ** Metadata extractor *)

Definition parse_geotiff_info (out : string) : result (bounds * list Z * R) :=
  (info <- match json_loads env out with
           | inl msg => Raise (JSONDecodeError msg)
           | inr info => Ok info
           end ;;
   corners <- getitem "cornerCoordinates" (cornerCoordinates info) ;;
   lower_left <- getitem "lowerLeft" (lowerLeft corners) ;;
   upper_right <- getitem "upperRight" (upperRight corners) ;;
   w <- list_getitem lower_left 0 ;;
   s <- list_getitem lower_left 1 ;;
   e <- list_getitem upper_right 0 ;;
   n <- list_getitem upper_right 1 ;;
   let bounds := mkBounds w s e n in
   size <- getitem "size" (size info) ;;
   geo_transform <- getitem "geoTransform" (geoTransform info) ;;
   pixel_size <- list_getitem geo_transform 1 ;;
   Ok (bounds, size, pixel_size))%result.

(** [None] stands for the triple [(None, None, None)]. *)
Definition get_geotiff_info (geotiff_path : string)
  : M (option (bounds * list Z * R)) :=
  try_except
    (out <- run_checked ["gdalinfo"; "-json"; geotiff_path] ;;
     r <- lift (parse_geotiff_info out) ;;
     ret (Some r))%M
    (fun e =>
       match e with
       | CalledProcessError msg =>
           Some (print ("Error getting info for " ++ geotiff_path ++ ": " ++ msg) ;;
                 ret None)%M
       | JSONDecodeError msg =>
           Some (print ("Error parsing gdalinfo output for " ++ geotiff_path ++ ": " ++ msg) ;;
                 ret None)%M
       | _ => None
       end).

(** ** Tile pyramid invoker *)

(** [str(bounds)] of the dictionary built by [get_geotiff_info]. *)
Definition bounds_repr (b : bounds) : string :=
  "{'west': " ++ float_repr env (west b) ++ ", 'south': " ++ float_repr env (south b)
  ++ ", 'east': " ++ float_repr env (east b) ++ ", 'north': " ++ float_repr env (north b)
  ++ "}".

Definition gdal2tiles_cmd (min_zoom max_zoom : Z) (geotiff_path tile_output_dir : string)
  : list string :=
  ["gdal2tiles.py";
   "-z"; str_of_Z min_zoom ++ "-" ++ str_of_Z max_zoom;
   "-w"; "none";
   "--processes=4";
   geotiff_path;
   tile_output_dir].

(** [None] stands for the triple [(None, None, None)]. *)
Definition generate_tiles (geotiff_path output_dir folder_name : string)
  : M (option (bounds * Z * Z)) :=
  (print ("Processing " ++ folder_name ++ "...") ;;
   info <- get_geotiff_info geotiff_path ;;
   match info with
   | None =>
       print ("Failed to get info for " ++ geotiff_path) ;;
       ret None
   | Some (bounds, size, pixel_size) =>
       image_width <- lift (list_getitem size 0) ;;
       ' (min_zoom, max_zoom) <- lift (calculate_zoom_levels pixel_size image_width) ;;
       print ("  Bounds: " ++ bounds_repr bounds) ;;
       print ("  Suggested zoom levels: " ++ str_of_Z min_zoom ++ "-" ++ str_of_Z max_zoom) ;;
       let tile_output_dir := os_path_join output_dir folder_name in
       os_makedirs tile_output_dir ;;
       let cmd := gdal2tiles_cmd min_zoom max_zoom geotiff_path tile_output_dir in
       print ("  Running: " ++ String.concat " " cmd) ;;
       try_except
         (run_checked cmd ;;
          print ("  ✓ Tiles generated successfully for " ++ folder_name) ;;
          ret (Some (bounds, min_zoom, max_zoom)))
         (fun e =>
            match e with
            | CalledProcessError msg =>
                Some (print ("  ✗ Error generating tiles for " ++ folder_name ++ ": " ++ msg) ;;
                      ret None)
            | _ => None
            end)
   end)%M.

(** ** Viewer config synthesizer *)

(** [[config['bounds'] for config in ortho_configs.values() if config['bounds']]]:
    a bounds dictionary has four keys, so it is true whenever it is not [None]. *)
Definition all_bounds (ortho_configs : dict ortho_config) : list bounds :=
  flat_map (fun config => match cfg_bounds config with
                          | Some b => [b]
                          | None => []
                          end)
           (dict_values ortho_configs).

(** The zoom values that count as true: an [int] or [None] used as a
    condition is false for [None] and for [0]. *)
Definition present_zooms (zooms : list (option Z)) : list Z :=
  flat_map (fun z => match z with
                     | Some z => if z =? 0 then [] else [z]
                     | None => []
                     end) zooms.

Definition all_min_zooms (ortho_configs : dict ortho_config) : list Z :=
  present_zooms (map cfg_min_zoom (dict_values ortho_configs)).

Definition all_max_zooms (ortho_configs : dict ortho_config) : list Z :=
  present_zooms (map cfg_max_zoom (dict_values ortho_configs)).

(** [min] and [max] of a list that is not empty. *)
Definition float_min (x : R) (xs : list R) : R := fold_left Rmin xs x.
Definition float_max (x : R) (xs : list R) : R := fold_left Rmax xs x.
Definition int_min (x : Z) (xs : list Z) : Z := fold_left Z.min xs x.
Definition int_max (x : Z) (xs : list Z) : Z := fold_left Z.max xs x.

Definition min_west (b : bounds) (bs : list bounds) : R := float_min (west b) (map west bs).
Definition max_east (b : bounds) (bs : list bounds) : R := float_max (east b) (map east bs).
Definition min_south (b : bounds) (bs : list bounds) : R := float_min (south b) (map south bs).
Definition max_north (b : bounds) (bs : list bounds) : R := float_max (north b) (map north bs).

Definition center_lat (b : bounds) (bs : list bounds) : R :=
  ((min_south b bs + max_north b bs) / 2)%R.
Definition center_lng (b : bounds) (bs : list bounds) : R :=
  ((min_west b bs + max_east b bs) / 2)%R.

Definition max_range (b : bounds) (bs : list bounds) : R :=
  let lat_range := (max_north b bs - min_south b bs)%R in
  let lng_range := (max_east b bs - min_west b bs)%R in
  Rmax lat_range lng_range.

Definition initial_zoom (b : bounds) (bs : list bounds) : result Z :=
  (l <- math_log2 (max_range b bs * 10)%R ;;
   Ok (Z.max 1 (py_int (10 - l)%R)))%result.

Definition overall_min_zoom (ortho_configs : dict ortho_config) : Z :=
  match all_min_zooms ortho_configs with
  | [] => 5
  | z :: zs => int_min z zs
  end.

Definition overall_max_zoom (ortho_configs : dict ortho_config) : Z :=
  match all_max_zooms ortho_configs with
  | [] => 18
  | z :: zs => int_max z zs
  end.

Definition js_header (lat lng : R) (zoom min_zoom max_zoom : Z) : string :=
  "// Configuration - Auto-generated from ortho processing
const CONFIG = {
    initialView: {
        lat: " ++ float_6f env lat ++ ",
        lng: " ++ float_6f env lng ++ ",
        zoom: " ++ str_of_Z zoom ++ "
    },
    
    zoomLevels: {
        min: " ++ str_of_Z min_zoom ++ ",
        max: " ++ str_of_Z max_zoom ++ "
    },
    
    orthoLayers: [
".

Definition js_layer (ortho_name : string) (config : ortho_config) : string :=
  match cfg_bounds config with
  | Some bounds =>
      "        {
            name: '" ++ ortho_name ++ "',
            url: '../tiles/" ++ ortho_name ++ "/{z}/{x}/{y}.png',
            bounds: [[" ++ float_6f env (south bounds) ++ ", " ++ float_6f env (west bounds)
      ++ "], [" ++ float_6f env (north bounds) ++ ", " ++ float_6f env (east bounds) ++ "]]
        },
"
  | None =>
      "        {
            name: '" ++ ortho_name ++ "',
            url: '../tiles/" ++ ortho_name ++ "/{z}/{x}/{y}.png',
            bounds: null
        },
"
  end.

Definition js_footer : string :=
  "    ]
};

// Initialize the map
const map = L.map('map').setView([CONFIG.initialView.lat, CONFIG.initialView.lng], CONFIG.initialView.zoom);

// Add OpenStreetMap base layer with 50% transparency
const osmLayer = L.tileLayer('https://{s}.tile.openstreetmap.org/{z}/{x}/{y}.png', {
    attribution: '© OpenStreetMap contributors',
    opacity: 0.5,
    maxZoom: 19
});
osmLayer.addTo(map);

// Dynamically add ortho tile layers
CONFIG.orthoLayers.forEach(layerConfig => {
    const layer = L.tileLayer(layerConfig.url, {
        attribution: layerConfig.name,
        maxZoom: CONFIG.zoomLevels.max,
        tms: false,
        bounds: layerConfig.bounds
    });
    layer.addTo(map);
});

// Set zoom limits
map.options.minZoom = CONFIG.zoomLevels.min;
map.options.maxZoom = CONFIG.zoomLevels.max;".

(** The text of the artifact, once the first bounds are known. *)
Definition js_config (ortho_configs : dict ortho_config) (b : bounds) (bs : list bounds)
  (zoom : Z) : string :=
  fold_left (fun js '(ortho_name, config) => js ++ js_layer ortho_name config)
            ortho_configs
            (js_header (center_lat b bs) (center_lng b bs) zoom
                       (overall_min_zoom ortho_configs) (overall_max_zoom ortho_configs))
  ++ js_footer.

Definition js_path (output_dir : string) : string :=
  os_path_join (os_path_join (os_path_join output_dir "web") "js") "map.js".

Definition update_map_config (ortho_configs : dict ortho_config) (output_dir : string)
  : M unit :=
  match all_bounds ortho_configs with
  | [] => print "No valid ortho bounds found"
  | b :: bs =>
      (zoom <- lift (initial_zoom b bs) ;;
       write_file (js_path output_dir) (js_config ortho_configs b bs zoom) ;;
       print "Updated map configuration:" ;;
       print ("  Center: " ++ float_6f env (center_lat b bs) ++ ", "
              ++ float_6f env (center_lng b bs)) ;;
       print ("  Initial zoom: " ++ str_of_Z zoom) ;;
       print ("  Zoom range: " ++ str_of_Z (overall_min_zoom ortho_configs) ++ "-"
              ++ str_of_Z (overall_max_zoom ortho_configs)))%M
  end.

(** ** Batch orchestrator *)

(** [a / b] on paths, for a relative [b] of one component. *)
Definition path_div (a b : string) : string :=
  if String.eqb a "." then b
  else if endswith a "/" then a ++ b
  else a ++ "/" ++ b.

Definition geotiff_dir : string := path_div (project_dir env) "orthos".
Definition tiles_dir : string := path_div (project_dir env) "tiles".

(** The pre-flight check of [main]. *)
Definition check_gdal : M unit :=
  try_except
    (run_checked ["gdalinfo"; "--version"] ;;
     run_checked ["gdal2tiles.py"; "--help"] ;;
     ret tt)%M
    (fun e =>
       match e with
       | CalledProcessError _ =>
           Some (print "Error: GDAL tools not found. Please install GDAL:" ;;
                 print "  Ubuntu/Debian: sudo apt-get install gdal-bin" ;;
                 print "  macOS: brew install gdal" ;;
                 print "  Windows: Install OSGeo4W or use conda" ;;
                 raise (SystemExit 1))%M
       | _ => None
       end).

Definition geotiff_files : list string :=
  (glob geotiff_dir ".tif" ++ glob geotiff_dir ".tiff")%list.

(** [for i, f in enumerate(geotiff_files, 1): print(...)]. *)
Fixpoint print_found (i : nat) (names : list string) : M unit :=
  match names with
  | [] => ret tt
  | name :: rest =>
      (print ("  " ++ str_of_nat i ++ ". " ++ name) ;;
       print_found (S i) rest)%M
  end.

(** The dictionary stored for a file, from what [generate_tiles] returned. *)
Definition ortho_config_of (r : option (bounds * Z * Z)) (name : string) : ortho_config :=
  match r with
  | Some (bounds, min_zoom, max_zoom) =>
      mkConfig (Some bounds) (Some min_zoom) (Some max_zoom) name
  | None => mkConfig None None None name
  end.

(** The body of the loop over [geotiff_files]. *)
Definition process_file (ortho_configs : dict ortho_config) (name : string)
  : M (dict ortho_config) :=
  (let folder_name := stem name in
   r <- generate_tiles (path_div geotiff_dir name) tiles_dir folder_name ;;
   ret (dict_set ortho_configs folder_name (ortho_config_of r name)))%M.

Fixpoint process_all (names : list string) (ortho_configs : dict ortho_config)
  : M (dict ortho_config) :=
  match names with
  | [] => ret ortho_configs
  | name :: rest =>
      (ortho_configs' <- process_file ortho_configs name ;;
       process_all rest ortho_configs')%M
  end.

Definition main : M unit :=
  (print "GeoTIFF to Web Tiles Generator" ;;
   print (string_repeat "=" 40) ;;
   check_gdal ;;
   match geotiff_files with
   | [] =>
       print ("No GeoTIFF files found in " ++ geotiff_dir) ;;
       print "Please place your .tif or .tiff files in the orthos/ directory" ;;
       raise (SystemExit 1)
   | _ :: _ =>
       print ("Found " ++ str_of_nat (List.length geotiff_files)
              ++ " GeoTIFF files to process:") ;;
       print_found 1 geotiff_files ;;
       ortho_configs <- process_all geotiff_files [] ;;
       print "
Updating map configuration..." ;;
       update_map_config ortho_configs (project_dir env) ;;
       print "
✓ Tile generation complete!" ;;
       print ("✓ Generated tiles in: " ++ tiles_dir) ;;
       print "✓ Updated map configuration" ;;
       print "
To view your map:" ;;
       print "1. Upload the 'web' and 'tiles' directories to your S3 bucket" ;;
       print "2. Enable static website hosting on the S3 bucket" ;;
       print "3. Set index.html as the index document"
   end)%M.

(** The pre-flight commands both exit with status 0. *)
Definition gdal_available : bool :=
  match subprocess_run env ["gdalinfo"; "--version"],
        subprocess_run env ["gdal2tiles.py"; "--help"] with
  | Completed _, Completed _ => true
  | _, _ => false
  end.

(** A pre-flight command exits with another status: the first one, or the
    second one after the first one passed. *)
Definition gdal_exits_nonzero : bool :=
  match subprocess_run env ["gdalinfo"; "--version"] with
  | Failed _ => true
  | Completed _ =>
      match subprocess_run env ["gdal2tiles.py"; "--help"] with
      | Failed _ => true
      | _ => false
      end
  | NotFound => false
  end.

(** The world in which the loop of [main] starts, when it starts. *)
Definition world_at_loop (w : world) : world :=
  snd (print_found 1 geotiff_files
         (mkWorld (stdout w ++ ["GeoTIFF to Web Tiles Generator";
                                string_repeat "=" 40;
                                "Found " ++ str_of_nat (List.length geotiff_files)
                                  ++ " GeoTIFF files to process:"])
                  (dirs w) (files w))).

(** The entry [config] under the key [k] is the record of its source
    file: the key is the stem of the file and the fields are what
    [generate_tiles] returns for the file. *)
Definition recorded (k : string) (config : ortho_config) : Prop :=
  let name := cfg_source_file config in
  k = stem name
  /\ exists r,
       (forall w, fst (generate_tiles (path_div geotiff_dir name) tiles_dir (stem name) w) = Ok r)
       /\ config = ortho_config_of r name.

(** The metadata extraction of a file fails: [gdalinfo] exits with a
    status that is not zero, or what it printed is not JSON. *)
Definition extraction_fails (geotiff_path : string) : bool :=
  match subprocess_run env ["gdalinfo"; "-json"; geotiff_path] with
  | Completed out =>
      match json_loads env out with
      | inl _ => true
      | inr _ => false
      end
  | Failed _ => true
  | NotFound => false
  end.

End Program.


(** The entry of a layer whose processing failed. *)
Definition absent_config (name : string) : ortho_config := mkConfig None None None name.

(** ** Sample runs *)

(** The metadata of a raster of 1024 x 1024 pixels of 0.1 map units. *)
Definition sample_info : gdalinfo_json :=
  mkInfo (Some (mkCorners (Some [(-1)%R; 0%R]) (Some [1%R; 2%R])))
         (Some [1024; 1024])
         (Some [(-1)%R; (1 / 10)%R; 0%R; 2%R; 0%R; (- (1 / 10))%R]).

(** A raster without georeferencing: [gdalinfo] prints no [geoTransform]. *)
Definition sample_info_no_transform : gdalinfo_json :=
  mkInfo (Some (mkCorners (Some [0%R; 1024%R]) (Some [1024%R; 0%R])))
         (Some [1024; 1024])
         None.

(** Both programs are installed; [info] answers [gdalinfo -json] on a path
    and [tiles] is what every run of [gdal2tiles.py] on a raster gives. *)
Definition sample_run (info : string -> process_outcome) (tiles : process_outcome)
  (cmd : list string) : process_outcome :=
  match cmd with
  | prog :: arg :: rest =>
      if String.eqb prog "gdalinfo" then
        if String.eqb arg "-json" then
          match rest with
          | path :: _ => info path
          | [] => Failed "exit status 1"
          end
        else Completed "GDAL 3.8.4, released 2024/02/08"
      else if String.eqb prog "gdal2tiles.py" then
        if String.eqb arg "--help" then Completed "Usage: gdal2tiles.py [options] input_file [output]"
        else tiles
      else NotFound
  | _ => NotFound
  end.

Definition sample_env (names : list string) (info : string -> process_outcome)
  (tiles : process_outcome) (doc : string -> string + gdalinfo_json) : Env :=
  mkEnv (sample_run info tiles) doc (fun _ => names)
        (fun _ => true) (fun _ => true)
        (fun _ => "0.0") (fun _ => "0.000000")
        "/srv/map".

Definition empty_world : world := mkWorld [] [] [].

(** One raster, on which [gdalinfo] exits with status 1. *)
Definition env_info_fails : Env :=
  sample_env ["siteA.tif"]
             (fun _ => Failed "Command returned non-zero exit status 1.")
             (Completed "")
             (fun _ => inr sample_info).

(** One raster, on which [gdal2tiles.py] exits with status 1. *)
Definition env_tiles_fail : Env :=
  sample_env ["siteA.tif"]
             (fun _ => Completed "{...}")
             (Failed "Command returned non-zero exit status 1.")
             (fun _ => inr sample_info).

(** One raster without georeferencing. *)
Definition env_no_transform : Env :=
  sample_env ["scan.tif"]
             (fun _ => Completed "{...}")
             (Completed "")
             (fun _ => inr sample_info_no_transform).

(** One raster, and neither program installed. *)
Definition env_not_installed : Env :=
  mkEnv (fun _ => NotFound) (fun _ => inr sample_info) (fun _ => ["siteA.tif"])
        (fun _ => true) (fun _ => true)
        (fun _ => "0.0") (fun _ => "0.000000")
        "/srv/map".

(** One raster, on which both programs succeed, and any formatters. *)
Definition env_one_raster (repr fmt : R -> string) : Env :=
  mkEnv (sample_run (fun _ => Completed "{...}") (Completed ""))
        (fun _ => inr sample_info) (fun _ => ["siteA.tif"])
        (fun _ => true) (fun _ => true)
        repr fmt
        "/srv/map".

(** Two rasters of one stem, listed with the [.tiff] file first;
    [gdalinfo] succeeds on the [.tif] file and fails on the [.tiff] file. *)
Definition env_same_stem : Env :=
  sample_env ["siteA.tiff"; "siteA.tif"]
             (fun path => if endswith path ".tiff"
                          then Failed "Command returned non-zero exit status 1."
                          else Completed "{...}")
             (Completed "")
             (fun _ => inr sample_info).

(** The three layers of the worked example of the specification. *)
Definition bounds_north : bounds := mkBounds (-1) 0 1 2.
Definition bounds_east : bounds := mkBounds 2 1 3 3.
Definition bounds_south : bounds := mkBounds (-2) (-1) 0 1.

Definition three_layers : dict ortho_config :=
  [("north", mkConfig (Some bounds_north) (Some 12) (Some 22) "north.tif");
   ("east", mkConfig (Some bounds_east) (Some 10) (Some 20) "east.tif");
   ("south", mkConfig (Some bounds_south) (Some 11) (Some 21) "south.tiff")].

(** A program that leaves the files alone. *)
Definition keeps_files {A} (m : M A) : Prop :=
  forall w, files (snd (m w)) = files w.

(** A program that leaves the directories alone. *)
Definition keeps_dirs {A} (m : M A) : Prop :=
  forall w, dirs (snd (m w)) = dirs w.

(** A raster whose pixel width is 0. *)
Definition sample_info_zero_pixel : gdalinfo_json :=
  mkInfo (Some (mkCorners (Some [(-1)%R; 0%R]) (Some [1%R; 2%R])))
         (Some [1024; 1024])
         (Some [(-1)%R; 0%R; 0%R; 2%R; 0%R; 0%R]).

(** Two rasters; the first one has a pixel width of 0. *)
Definition env_zero_pixel : Env :=
  sample_env ["flat.tif"; "siteA.tif"]
             (fun _ => Completed "{...}")
             (Completed "")
             (fun _ => inr sample_info_zero_pixel).

(** What the loop of [main] stores for the files [names]: the key is the
    stem of the source file, which is one of [names], and the bounds and the
    zoom levels are all missing or all there, with zoom levels that are a
    range ending between 1 and 22. *)
Definition loop_entry (names : list string) (k : string) (config : ortho_config) : Prop :=
  k = stem (cfg_source_file config)
  /\ In (cfg_source_file config) names
  /\ (config = absent_config (cfg_source_file config)
      \/ exists b lo hi,
           config = mkConfig (Some b) (Some lo) (Some hi) (cfg_source_file config)
           /\ lo <= hi /\ 1 <= hi <= 22).

(** One raster, in a project whose [web/js] directory cannot be written. *)
Definition env_unwritable : Env :=
  mkEnv (sample_run (fun _ => Completed "{...}") (Completed ""))
        (fun _ => inr sample_info) (fun _ => ["siteA.tif"])
        (fun _ => true) (fun _ => false)
        (fun _ => "0.0") (fun _ => "0.000000")
        "/srv/map".

(** * Properties *)

(** ** Facts on the float operations *)

Section FloatFacts.
Local Open Scope R_scope.

Lemma ln2_pos : 0 < ln 2.
Proof. pose proof ln_lt_2. lra. Qed.

Lemma meters_per_pixel_zoom0_pos : 0 < meters_per_pixel_zoom0.
Proof. unfold meters_per_pixel_zoom0. lra. Qed.

Lemma py_int_IZR (z : Z) : py_int (IZR z) = z.
Proof.
  unfold py_int. destruct (Rle_dec 0 (IZR z)).
  - apply ZfloorZ.
  - apply Zceil_eq. lra.
Qed.

(** [int] truncates: it is the floor of a non-negative float and the
    ceiling of a negative one. *)
Lemma py_int_nonneg (x : R) : 0 <= x -> py_int x = Zfloor x.
Proof. intros H. unfold py_int. destruct (Rle_dec 0 x); [reflexivity | lra]. Qed.

Lemma py_int_neg (x : R) : x < 0 -> py_int x = Zceil x.
Proof. intros H. unfold py_int. destruct (Rle_dec 0 x); [lra | reflexivity]. Qed.

Lemma py_int_between (z : Z) (x : R) :
  (0 <= z)%Z -> IZR z <= x < IZR z + 1 -> py_int x = z.
Proof.
  intros Hz Hx. rewrite py_int_nonneg.
  - now apply Zfloor_eq.
  - apply IZR_le in Hz. lra.
Qed.

Lemma py_int_lower (z : Z) (x : R) : (0 <= z)%Z -> IZR z <= x -> (z <= py_int x)%Z.
Proof.
  intros Hz Hx. rewrite py_int_nonneg.
  - now apply Zfloor_lub.
  - apply IZR_le in Hz. lra.
Qed.

(** A float above [-(k+1)] truncates to at least [-k]. *)
Lemma py_int_above (k : Z) (x : R) :
  (0 <= k)%Z -> - IZR k - 1 < x -> (- k <= py_int x)%Z.
Proof.
  intros Hk Hx. unfold py_int. destruct (Rle_dec 0 x) as [H0 | H0].
  - assert (0 <= Zfloor x)%Z by (apply Zfloor_lub; exact H0). lia.
  - pose proof (Zceil_bound x) as [_ Hc].
    assert (IZR (- k - 1) < IZR (Zceil x)) as Hlt
      by (rewrite minus_IZR, opp_IZR; lra).
    apply lt_IZR in Hlt. lia.
Qed.

(** Below zero [int] is the ceiling, which is not the floor of a float
    that is not an integer; both stay below 1. *)
Lemma py_int_neg_le0 (x : R) : x < 0 -> (py_int x <= 0)%Z.
Proof.
  intros Hx. rewrite py_int_neg by exact Hx.
  pose proof (Zceil_bound x) as [Hc _].
  assert (IZR (Zceil x) < IZR 1) as Hlt by lra.
  apply lt_IZR in Hlt. lia.
Qed.

Lemma Zfloor_neg_lt0 (x : R) : x < 0 -> (Zfloor x < 0)%Z.
Proof.
  intros Hx. pose proof (Zfloor_bound x) as [Hf _].
  apply lt_IZR. lra.
Qed.

Lemma max1_py_int_floor (x : R) : Z.max 1 (py_int x) = Z.max 1 (Zfloor x).
Proof.
  destruct (Rle_dec 0 x) as [H0 | H0].
  - now rewrite py_int_nonneg.
  - assert (x < 0) as Hx by lra.
    pose proof (py_int_neg_le0 x Hx). pose proof (Zfloor_neg_lt0 x Hx). lia.
Qed.

Lemma py_int_differs_from_floor : py_int (- (3 / 2)) = (-1)%Z /\ Zfloor (- (3 / 2)) = (-2)%Z.
Proof.
  split.
  - rewrite py_int_neg by lra. apply Zceil_eq. simpl. lra.
  - apply Zfloor_eq. simpl. lra.
Qed.

Lemma math_log2_pos (x : R) : 0 < x -> math_log2 x = Ok (log2 x).
Proof. intros H. unfold math_log2. destruct (Rlt_dec 0 x); [reflexivity | lra]. Qed.

Lemma math_log2_nonpos (x : R) : x <= 0 -> math_log2 x = Raise ValueError.
Proof. intros H. unfold math_log2. destruct (Rlt_dec 0 x); [lra | reflexivity]. Qed.

Lemma float_truediv_nonzero (a b : R) : b <> 0 -> float_truediv a b = Ok (a / b).
Proof.
  intros H. unfold float_truediv. destruct (Req_dec_T b 0); [contradiction | reflexivity].
Qed.

(** Bounds on a quotient by a positive divisor. *)
Lemma Rlt_quotient (a b c : R) : 0 < b -> a * b < c -> a < c / b.
Proof.
  intros Hb H. apply Rmult_lt_reg_r with b; [exact Hb |].
  unfold Rdiv. rewrite Rmult_assoc, Rinv_l by lra. lra.
Qed.

Lemma Rle_quotient (a b c : R) : 0 < b -> a * b <= c -> a <= c / b.
Proof.
  intros Hb H. apply Rmult_le_reg_r with b; [exact Hb |].
  unfold Rdiv. rewrite Rmult_assoc, Rinv_l by lra. lra.
Qed.

Lemma Rquotient_lt (a b c : R) : 0 < b -> c < a * b -> c / b < a.
Proof.
  intros Hb H. apply Rmult_lt_reg_r with b; [exact Hb |].
  unfold Rdiv. rewrite Rmult_assoc, Rinv_l by lra. lra.
Qed.

(** [log2] of a power of two, and its monotonicity. *)
Lemma log2_pow2 (n : nat) : log2 (2 ^ n) = INR n.
Proof.
  unfold log2. rewrite ln_pow by lra. field. pose proof ln2_pos. lra.
Qed.

Lemma log2_inv (x : R) : 0 < x -> log2 (/ x) = - log2 x.
Proof.
  intros Hx. unfold log2. rewrite ln_Rinv by exact Hx. field. pose proof ln2_pos. lra.
Qed.

Lemma log2_le (x y : R) : 0 < x -> x <= y -> log2 x <= log2 y.
Proof.
  intros Hx Hxy. pose proof ln2_pos as H2. unfold log2.
  apply Rmult_le_compat_r; [left; now apply Rinv_0_lt_compat |].
  destruct Hxy as [Hlt | ->]; [left; now apply ln_increasing | right; reflexivity].
Qed.

Lemma log2_lt (x y : R) : 0 < x -> x < y -> log2 x < log2 y.
Proof.
  intros Hx Hxy. pose proof ln2_pos as H2. unfold log2.
  apply Rmult_lt_compat_r; [now apply Rinv_0_lt_compat | now apply ln_increasing].
Qed.

Lemma log2_above (n : nat) (x : R) : 2 ^ n <= x -> INR n <= log2 x.
Proof.
  intros Hx. rewrite <- (log2_pow2 n). apply log2_le; [apply pow_lt; lra | exact Hx].
Qed.

Lemma log2_strictly_above (n : nat) (x : R) : 2 ^ n < x -> INR n < log2 x.
Proof.
  intros Hx. rewrite <- (log2_pow2 n). apply log2_lt; [apply pow_lt; lra | exact Hx].
Qed.

Lemma log2_below (n : nat) (x : R) : 0 < x -> x < 2 ^ n -> log2 x < INR n.
Proof.
  intros H0 Hx. rewrite <- (log2_pow2 n). now apply log2_lt.
Qed.

End FloatFacts.

(** ** The zoom range estimator *)

Section ZoomFacts.

Lemma optimal_zoom_nonzero (pixel_size : R) :
  pixel_size <> 0%R ->
  optimal_zoom pixel_size = Ok (log2 (meters_per_pixel_zoom0 / Rabs pixel_size)).
Proof.
  intros Hp. unfold optimal_zoom.
  assert (0 < Rabs pixel_size)%R as Habs by (now apply Rabs_pos_lt).
  rewrite float_truediv_nonzero by lra. cbn [rbind].
  apply math_log2_pos.
  apply Rdiv_lt_0_compat; [apply meters_per_pixel_zoom0_pos | exact Habs].
Qed.

Lemma optimal_zoom_zero : optimal_zoom 0 = Raise ZeroDivisionError.
Proof.
  unfold optimal_zoom, float_truediv.
  rewrite Rabs_R0. destruct (Req_dec_T 0 0); [reflexivity | congruence].
Qed.

Lemma optimal_zoom_inv (pixel_size oz : R) :
  optimal_zoom pixel_size = Ok oz ->
  pixel_size <> 0%R /\ oz = log2 (meters_per_pixel_zoom0 / Rabs pixel_size).
Proof.
  intros H.
  assert (pixel_size <> 0%R) as Hnz
    by (intros ->; rewrite optimal_zoom_zero in H; discriminate).
  rewrite optimal_zoom_nonzero in H by exact Hnz. injection H as <-. now split.
Qed.

(** The estimator is its integer part applied to [int(optimal_zoom)]. *)
Lemma calculate_zoom_levels_eq (pixel_size : R) (image_width : Z) :
  calculate_zoom_levels pixel_size image_width
  = (oz <- optimal_zoom pixel_size ;; Ok (zoom_range_of (py_int oz)))%result.
Proof.
  unfold calculate_zoom_levels, optimal_zoom.
  destruct (float_truediv _ _) as [q | e]; cbn [rbind]; [| reflexivity].
  destruct (math_log2 q) as [oz | e]; cbn [rbind]; [| reflexivity].
  unfold zoom_range_of. destruct (18 <? _); reflexivity.
Qed.

Lemma zoom_range_of_fallback (z : Z) : 27 <= z -> zoom_range_of z = (10, 22).
Proof.
  intros H. unfold zoom_range_of.
  destruct (Z.ltb_spec 18 (Z.min (Z.max 1 (z - 8)) (Z.min 22 (z + 4)))); [reflexivity | lia].
Qed.

Lemma zoom_range_of_no_fallback (z : Z) :
  z <= 26 -> zoom_range_of z = (Z.min (Z.max 1 (z - 8)) (z + 4), Z.max (Z.max 1 (z - 8)) (Z.min 22 (z + 4))).
Proof.
  intros H. unfold zoom_range_of.
  destruct (Z.ltb_spec 18 (Z.min (Z.max 1 (z - 8)) (Z.min 22 (z + 4)))); [lia |].
  f_equal. lia.
Qed.

Lemma zoom_range_of_ordered (z : Z) :
  fst (zoom_range_of z) <= snd (zoom_range_of z).
Proof.
  unfold zoom_range_of.
  destruct (Z.ltb_spec 18 (Z.min (Z.max 1 (z - 8)) (Z.min 22 (z + 4)))); cbn; lia.
Qed.

Lemma zoom_range_of_upper (z : Z) :
  1 <= snd (zoom_range_of z) <= 22 /\ fst (zoom_range_of z) <= 22.
Proof.
  unfold zoom_range_of.
  destruct (Z.ltb_spec 18 (Z.min (Z.max 1 (z - 8)) (Z.min 22 (z + 4)))); cbn; lia.
Qed.

Lemma zoom_range_of_lower (z : Z) : -3 <= z -> 1 <= fst (zoom_range_of z).
Proof.
  unfold zoom_range_of.
  destruct (Z.ltb_spec 18 (Z.min (Z.max 1 (z - 8)) (Z.min 22 (z + 4)))); cbn; lia.
Qed.

(** The optimal zoom of some concrete pixel sizes. *)
Lemma optimal_zoom_between (pixel_size : R) (n : nat) :
  (0 < pixel_size)%R ->
  (2 ^ n * pixel_size < meters_per_pixel_zoom0 < 2 ^ S n * pixel_size)%R ->
  exists oz, optimal_zoom pixel_size = Ok oz /\ (INR n < oz < INR n + 1)%R.
Proof.
  intros Hp [Hlo Hhi].
  exists (log2 (meters_per_pixel_zoom0 / Rabs pixel_size)).
  split; [apply optimal_zoom_nonzero; lra |].
  rewrite Rabs_pos_eq by lra.
  assert (0 < meters_per_pixel_zoom0 / pixel_size)%R as Hq
    by (apply Rdiv_lt_0_compat; [apply meters_per_pixel_zoom0_pos | exact Hp]).
  split.
  - apply log2_strictly_above. apply Rlt_quotient; lra.
  - replace (INR n + 1)%R with (INR (S n)) by (rewrite S_INR; reflexivity).
    apply log2_below; [exact Hq |]. apply Rquotient_lt; lra.
Qed.

Lemma py_int_open_interval (n : nat) (oz : R) :
  (INR n < oz < INR n + 1)%R -> py_int oz = Z.of_nat n.
Proof.
  intros H. apply py_int_between; [lia |]. rewrite <- INR_IZR_INZ. lra.
Qed.

(** The optimal zoom is above -4 for the pixel sizes below
    16 * 156543.03392804097, and only for them. *)
Lemma optimal_zoom_above_minus_4 (pixel_size : R) :
  (0 < pixel_size)%R ->
  (-4 < log2 (meters_per_pixel_zoom0 / pixel_size))%R
  <-> (pixel_size < 16 * meters_per_pixel_zoom0)%R.
Proof.
  intros Hp. pose proof meters_per_pixel_zoom0_pos as Hc.
  assert (0 < meters_per_pixel_zoom0 / pixel_size)%R as Hq
    by (now apply Rdiv_lt_0_compat).
  assert (log2 (/ 2 ^ 4) = (-4)%R) as H4.
  { rewrite log2_inv by (apply pow_lt; lra). rewrite log2_pow2. simpl. lra. }
  rewrite <- H4. split.
  - intros Hlt.
    assert (/ 2 ^ 4 < meters_per_pixel_zoom0 / pixel_size)%R as Hx.
    { destruct (Rlt_le_dec (/ 2 ^ 4) (meters_per_pixel_zoom0 / pixel_size)) as [H | H];
        [exact H |].
      apply (log2_le _ _ Hq) in H. lra. }
    apply (Rmult_lt_compat_r pixel_size) in Hx; [| exact Hp].
    unfold Rdiv in Hx. rewrite Rmult_assoc, Rinv_l in Hx by lra.
    simpl in Hx. lra.
  - intros Hlt. apply log2_lt; [apply Rinv_0_lt_compat, pow_lt; lra |].
    apply Rlt_quotient; [exact Hp |]. simpl. lra.
Qed.

(** The worked example of the specification: 0.1 m per pixel. *)
Example calculate_zoom_levels_10cm (image_width : Z) :
  calculate_zoom_levels (1 / 10) image_width = Ok (12, 22).
Proof.
  destruct (optimal_zoom_between (1 / 10) 20) as (oz & Hoz & Hb).
  - lra.
  - unfold meters_per_pixel_zoom0. simpl. lra.
  - rewrite calculate_zoom_levels_eq, Hoz. cbn [rbind].
    rewrite (py_int_open_interval 20 oz Hb). reflexivity.
Qed.







End ZoomFacts.

(** ** Effects: every program of the script extends the world *)

Section Effects.

Lemma extend_nil (w : world) : extend w [] [] [] = w.
Proof. destruct w. unfold extend. cbn. now rewrite app_nil_r. Qed.

Lemma extend_extend w o1 d1 f1 o2 d2 f2 :
  extend (extend w o1 d1 f1) o2 d2 f2 = extend w (o1 ++ o2) (d2 ++ d1) (f2 ++ f1).
Proof. unfold extend. cbn. now rewrite !app_assoc. Qed.

Lemma uniform_ret {A} (a : A) : uniform (ret a).
Proof. exists (Ok a), [], [], []. intros w. now rewrite extend_nil. Qed.

Lemma uniform_raise {A} (e : exn) : uniform (@raise A e).
Proof. exists (Raise e), [], [], []. intros w. now rewrite extend_nil. Qed.

Lemma uniform_lift {A} (r : result A) : uniform (lift r).
Proof. exists r, [], [], []. intros w. now rewrite extend_nil. Qed.

Lemma uniform_print (line : string) : uniform (print line).
Proof. exists (Ok tt), [line], [], []. intros w. reflexivity. Qed.

Lemma uniform_bind {A B} (m : M A) (k : A -> M B) :
  uniform m -> (forall a, uniform (k a)) -> uniform (bind m k).
Proof.
  intros (r & o1 & d1 & f1 & Hm) Hk. destruct r as [a | e].
  - destruct (Hk a) as (r2 & o2 & d2 & f2 & Hka).
    exists r2, (o1 ++ o2)%list, (d2 ++ d1)%list, (f2 ++ f1)%list. intros w.
    unfold bind. now rewrite Hm, Hka, extend_extend.
  - exists (Raise e), o1, d1, f1. intros w. unfold bind. now rewrite Hm.
Qed.

Lemma uniform_try_except {A} (body : M A) (handler : exn -> option (M A)) :
  uniform body ->
  (forall e h, handler e = Some h -> uniform h) ->
  uniform (try_except body handler).
Proof.
  intros (r & o1 & d1 & f1 & Hm) Hh. destruct r as [a | e].
  - exists (Ok a), o1, d1, f1. intros w. unfold try_except. now rewrite Hm.
  - destruct (handler e) as [h |] eqn:He.
    + destruct (Hh e h He) as (r2 & o2 & d2 & f2 & Hhw).
      exists r2, (o1 ++ o2)%list, (d2 ++ d1)%list, (f2 ++ f1)%list. intros w.
      unfold try_except. now rewrite Hm, He, Hhw, extend_extend.
    + exists (Raise e), o1, d1, f1. intros w. unfold try_except. now rewrite Hm, He.
Qed.

Variable env : Env.

Lemma uniform_run_checked (cmd : list string) : uniform (run_checked env cmd).
Proof.
  unfold run_checked. destruct (subprocess_run env cmd).
  - apply uniform_ret.
  - apply uniform_raise.
  - apply uniform_raise.
Qed.

Lemma uniform_os_makedirs (path : string) : uniform (os_makedirs env path).
Proof.
  unfold os_makedirs. destruct (makedirs_ok env path).
  - exists (Ok tt), [], [path], []. intros w. unfold extend. cbn. now rewrite app_nil_r.
  - exists (Raise OSError), [], [], []. intros w. now rewrite extend_nil.
Qed.

Lemma uniform_write_file (path content : string) : uniform (write_file env path content).
Proof.
  unfold write_file. destruct (open_ok env path).
  - exists (Ok tt), [], [], [(path, content)]. intros w. unfold extend. cbn.
    now rewrite app_nil_r.
  - exists (Raise OSError), [], [], []. intros w. now rewrite extend_nil.
Qed.

End Effects.

Create HintDb uniform.
#[local] Hint Resolve uniform_ret uniform_raise uniform_lift uniform_print
  uniform_run_checked uniform_os_makedirs uniform_write_file : uniform.

(** Splits a program along its binds and its handlers. *)
Ltac uniform_step :=
  match goal with
  | |- uniform (bind _ _) => apply uniform_bind; [| intros ?]
  | |- uniform (try_except _ _) =>
      apply uniform_try_except;
      [| let e := fresh "e" in let h := fresh "h" in let H := fresh "H" in
         intros e h H; destruct e; inversion H; subst; clear H]
  | |- uniform (match ?x with _ => _ end) => destruct x
  | |- uniform (let '(_, _) := ?x in _) => destruct x
  | |- uniform _ => solve [auto with uniform]
  end.

Ltac uniform_tac := repeat uniform_step.

Section ProgramEffects.

Variable env : Env.

Lemma uniform_get_geotiff_info (path : string) : uniform (get_geotiff_info env path).
Proof. unfold get_geotiff_info. uniform_tac. Qed.

Lemma uniform_generate_tiles (path out folder : string) :
  uniform (generate_tiles env path out folder).
Proof.
  unfold generate_tiles. pose proof (uniform_get_geotiff_info path). uniform_tac.
Qed.

Lemma uniform_update_map_config (cfgs : dict ortho_config) (out : string) :
  uniform (update_map_config env cfgs out).
Proof. unfold update_map_config. uniform_tac. Qed.

Lemma uniform_process_file (cfgs : dict ortho_config) (name : string) :
  uniform (process_file env cfgs name).
Proof.
  unfold process_file. pose proof (uniform_generate_tiles). uniform_tac.
Qed.

Lemma uniform_process_all (names : list string) :
  forall cfgs, uniform (process_all env names cfgs).
Proof.
  induction names as [| name rest IH]; intros cfgs; cbn [process_all].
  - apply uniform_ret.
  - apply uniform_bind; [apply uniform_process_file | intros d; apply IH].
Qed.

Lemma uniform_print_found (names : list string) :
  forall i, uniform (print_found i names).
Proof.
  induction names as [| name rest IH]; intros i; cbn [print_found].
  - apply uniform_ret.
  - apply uniform_bind; [apply uniform_print | intros _; apply IH].
Qed.

Lemma uniform_check_gdal : uniform (check_gdal env).
Proof. unfold check_gdal. uniform_tac. Qed.

Lemma uniform_main : uniform (main env).
Proof.
  unfold main.
  pose proof uniform_check_gdal. pose proof uniform_print_found.
  pose proof uniform_process_all. pose proof uniform_update_map_config.
  uniform_tac.
Qed.

(** The result of a uniform program is the same from every world. *)
Lemma uniform_result {A} (m : M A) (w1 w2 : world) :
  uniform m -> fst (m w1) = fst (m w2).
Proof. intros (r & o & d & f & H). now rewrite !H. Qed.

End ProgramEffects.

(** ** The viewer config synthesizer *)

(** Decides the [Rmin] and [Rmax] of the goal whose arguments [lra] can
    compare. *)
Ltac eval_minmax :=
  repeat match goal with
         | |- context [Rmin ?a ?b] =>
             first [rewrite (Rmin_left a b) by lra | rewrite (Rmin_right a b) by lra]
         | |- context [Rmax ?a ?b] =>
             first [rewrite (Rmax_left a b) by lra | rewrite (Rmax_right a b) by lra]
         end.

Section Synthesizer.

(** [float_min] and [float_max] are the least and the greatest element. *)
Lemma float_min_spec (xs : list R) :
  forall x, In (float_min x xs) (x :: xs) /\ forall y, In y (x :: xs) -> (float_min x xs <= y)%R.
Proof.
  unfold float_min. induction xs as [| a xs IH]; intros x; cbn [fold_left].
  - split; [now left |]. intros y [<- | []]. lra.
  - destruct (IH (Rmin x a)) as [Hin Hle]. split.
    + destruct Hin as [Heq | Hin].
      * rewrite <- Heq. unfold Rmin. destruct (Rle_dec x a); [now left | right; now left].
      * right. now right.
    + intros y Hy.
      assert (fold_left Rmin xs (Rmin x a) <= Rmin x a)%R as Hm by (apply Hle; now left).
      destruct Hy as [<- | [<- | Hy]].
      * pose proof (Rmin_l x a). lra.
      * pose proof (Rmin_r x a). lra.
      * apply Hle. now right.
Qed.

Lemma float_max_spec (xs : list R) :
  forall x, In (float_max x xs) (x :: xs) /\ forall y, In y (x :: xs) -> (y <= float_max x xs)%R.
Proof.
  unfold float_max. induction xs as [| a xs IH]; intros x; cbn [fold_left].
  - split; [now left |]. intros y [<- | []]. lra.
  - destruct (IH (Rmax x a)) as [Hin Hle]. split.
    + destruct Hin as [Heq | Hin].
      * rewrite <- Heq. unfold Rmax. destruct (Rle_dec x a); [right; now left | now left].
      * right. now right.
    + intros y Hy.
      assert (Rmax x a <= fold_left Rmax xs (Rmax x a))%R as Hm by (apply Hle; now left).
      destruct Hy as [<- | [<- | Hy]].
      * pose proof (Rmax_l x a). lra.
      * pose proof (Rmax_r x a). lra.
      * apply Hle. now right.
Qed.

Lemma initial_zoom_positive (b : bounds) (bs : list bounds) :
  (0 < max_range b bs)%R ->
  initial_zoom b bs = Ok (Z.max 1 (py_int (10 - log2 (max_range b bs * 10)))).
Proof.
  intros H. unfold initial_zoom. rewrite math_log2_pos by lra. reflexivity.
Qed.

(** An extent that is not positive makes [math.log2] raise. *)
Lemma initial_zoom_degenerate (b : bounds) (bs : list bounds) :
  (max_range b bs <= 0)%R -> initial_zoom b bs = Raise ValueError.
Proof.
  intros H. unfold initial_zoom. rewrite math_log2_nonpos by lra. reflexivity.
Qed.

Variable env : Env.

Lemma update_map_config_no_bounds (cfgs : dict ortho_config) (out : string) (w : world) :
  all_bounds cfgs = [] ->
  update_map_config env cfgs out w
  = (Ok tt, mkWorld (stdout w ++ ["No valid ortho bounds found"]) (dirs w) (files w)).
Proof. intros H. unfold update_map_config. rewrite H. reflexivity. Qed.

Lemma update_map_config_bounds (cfgs : dict ortho_config) (out : string)
  (b : bounds) (bs : list bounds) (z : Z) (w : world) :
  all_bounds cfgs = b :: bs ->
  initial_zoom b bs = Ok z ->
  open_ok env (js_path out) = true ->
  update_map_config env cfgs out w
  = (Ok tt,
     mkWorld (stdout w ++ ["Updated map configuration:";
                           "  Center: " ++ float_6f env (center_lat b bs) ++ ", "
                             ++ float_6f env (center_lng b bs);
                           "  Initial zoom: " ++ str_of_Z z;
                           "  Zoom range: " ++ str_of_Z (overall_min_zoom cfgs) ++ "-"
                             ++ str_of_Z (overall_max_zoom cfgs)])
             (dirs w)
             ((js_path out, js_config env cfgs b bs z) :: files w)).
Proof.
  intros Hb Hz Hopen. unfold update_map_config. rewrite Hb.
  unfold bind, lift, write_file, print. rewrite Hz, Hopen. cbn.
  now rewrite <- !app_assoc.
Qed.

Lemma update_map_config_cannot_open (cfgs : dict ortho_config) (out : string)
  (b : bounds) (bs : list bounds) (z : Z) (w : world) :
  all_bounds cfgs = b :: bs ->
  initial_zoom b bs = Ok z ->
  open_ok env (js_path out) = false ->
  update_map_config env cfgs out w = (Raise OSError, w).
Proof.
  intros Hb Hz Hopen. unfold update_map_config. rewrite Hb.
  unfold bind, lift, write_file. now rewrite Hz, Hopen.
Qed.

Lemma update_map_config_raises (cfgs : dict ortho_config) (out : string)
  (b : bounds) (bs : list bounds) (e : exn) (w : world) :
  all_bounds cfgs = b :: bs ->
  initial_zoom b bs = Raise e ->
  update_map_config env cfgs out w = (Raise e, w).
Proof.
  intros Hb Hz. unfold update_map_config. rewrite Hb.
  unfold bind, lift. now rewrite Hz.
Qed.



End Synthesizer.

(** ** Dictionaries, file names and the directory scan *)

Section DictFacts.

Context {V : Type}.

Lemma dict_get_set_same (d : dict V) (k : string) (v : V) :
  dict_get (dict_set d k v) k = Some v.
Proof.
  induction d as [| [k' v'] d IH]; cbn.
  - now rewrite String.eqb_refl.
  - destruct (String.eqb_spec k' k) as [-> | Hne]; cbn.
    + now rewrite String.eqb_refl.
    + destruct (String.eqb_spec k' k); [contradiction | exact IH].
Qed.

Lemma dict_get_set_other (d : dict V) (k k0 : string) (v : V) :
  k <> k0 -> dict_get (dict_set d k v) k0 = dict_get d k0.
Proof.
  intros Hne. induction d as [| [k' v'] d IH]; cbn.
  - destruct (String.eqb_spec k k0); [contradiction | reflexivity].
  - destruct (String.eqb_spec k' k) as [-> | Hk]; cbn.
    + destruct (String.eqb_spec k k0); [contradiction | reflexivity].
    + destruct (String.eqb_spec k' k0); [reflexivity | exact IH].
Qed.

Lemma dict_keys_set (d : dict V) (k k0 : string) (v : V) :
  In k0 (dict_keys (dict_set d k v)) <-> k0 = k \/ In k0 (dict_keys d).
Proof.
  unfold dict_keys. induction d as [| [k' v'] d IH]; cbn.
  - intuition.
  - destruct (String.eqb_spec k' k) as [-> | Hk]; cbn.
    + intuition.
    + rewrite IH. intuition.
Qed.

Lemma dict_set_NoDup (d : dict V) (k : string) (v : V) :
  NoDup (dict_keys d) -> NoDup (dict_keys (dict_set d k v)).
Proof.
  unfold dict_keys. induction d as [| [k' v'] d IH]; cbn; intros Hnd.
  - constructor; [intros [] | constructor].
  - inversion Hnd as [| ? ? Hnotin Hnd']; subst.
    destruct (String.eqb_spec k' k) as [-> | Hk]; cbn.
    + now constructor.
    + constructor; [| now apply IH].
      intros Hin. apply (dict_keys_set d k k' v) in Hin. destruct Hin; [congruence | contradiction].
Qed.

Lemma dict_get_In (d : dict V) (k : string) (v : V) :
  dict_get d k = Some v -> In (k, v) d.
Proof.
  induction d as [| [k' v'] d IH]; cbn; [discriminate |].
  destruct (String.eqb_spec k' k) as [-> | Hk].
  - intros [= ->]. now left.
  - intros H. right. now apply IH.
Qed.

Lemma dict_In_get (d : dict V) (k : string) (v : V) :
  NoDup (dict_keys d) -> In (k, v) d -> dict_get d k = Some v.
Proof.
  unfold dict_keys. induction d as [| [k' v'] d IH]; cbn; intros Hnd Hin; [contradiction |].
  inversion Hnd as [| ? ? Hnotin Hnd']; subst.
  destruct Hin as [[= -> ->] | Hin].
  - now rewrite String.eqb_refl.
  - destruct (String.eqb_spec k' k) as [-> | Hk]; [| now apply IH].
    exfalso. apply Hnotin. apply (in_map fst) in Hin. exact Hin.
Qed.

Lemma dict_key_once (d : dict V) (k : string) :
  NoDup (dict_keys d) -> In k (dict_keys d) -> count_occ string_dec (dict_keys d) k = 1%nat.
Proof.
  intros Hnd Hin.
  pose proof (proj1 (NoDup_count_occ string_dec (dict_keys d)) Hnd k) as Hle.
  pose proof (proj1 (count_occ_In string_dec (dict_keys d) k) Hin) as Hgt.
  lia.
Qed.

End DictFacts.

Section NameFacts.

Lemma endswith_tif_not_tiff (name : string) :
  endswith name ".tif" = true -> endswith name ".tiff" = false.
Proof.
  induction name as [| c rest IH]; cbn [endswith]; intros H.
  - discriminate.
  - apply orb_true_iff in H. apply orb_false_iff. destruct H as [H | H].
    + apply String.eqb_eq in H. inversion H; subst. split; reflexivity.
    + split.
      * destruct (String.eqb_spec (String c rest) ".tiff") as [Heq | Hne]; [| reflexivity].
        inversion Heq; subst. discriminate H.
      * now apply IH.
Qed.

Lemma in_split_last {A} (dec : forall x y : A, {x = y} + {x <> y}) (x : A) (l : list A) :
  In x l -> exists l1 l2, l = (l1 ++ x :: l2)%list /\ ~ In x l2.
Proof.
  induction l as [| a l IH]; intros Hin; [contradiction |].
  destruct (in_dec dec x l) as [Hl | Hl].
  - destruct (IH Hl) as (l1 & l2 & -> & Hn). now exists (a :: l1), l2.
  - destruct Hin as [-> | Hin]; [| contradiction]. now exists [], l.
Qed.

Variable env : Env.

Lemma glob_In (directory suffix name : string) :
  In name (glob env directory suffix)
  <-> In name (listdir env directory) /\ endswith name suffix = true.
Proof.
  unfold glob.
  exact (filter_In (fun n => endswith n suffix) name (listdir env directory)).
Qed.

(** Every [.tif] file is discovered before every [.tiff] file. *)
Lemma geotiff_files_tif_first (f1 f2 : string) :
  In f1 (listdir env (geotiff_dir env)) -> endswith f1 ".tif" = true ->
  In f2 (listdir env (geotiff_dir env)) -> endswith f2 ".tiff" = true ->
  exists l1 l2 l3,
    geotiff_files env = (l1 ++ f1 :: l2 ++ f2 :: l3)%list
    /\ ~ In f2 l3
    /\ forall g, In g l3 -> endswith g ".tiff" = true.
Proof.
  intros H1 E1 H2 E2.
  assert (In f1 (glob env (geotiff_dir env) ".tif")) as G1 by (apply glob_In; auto).
  assert (In f2 (glob env (geotiff_dir env) ".tiff")) as G2 by (apply glob_In; auto).
  apply in_split in G1. destruct G1 as (a & b & Ha).
  apply (in_split_last string_dec) in G2. destruct G2 as (c & l3 & Hc & Hn).
  exists a, (b ++ c)%list, l3. split; [| split].
  - unfold geotiff_files. rewrite Ha, Hc. now rewrite <- !app_assoc.
  - exact Hn.
  - intros g Hg.
    assert (In g (glob env (geotiff_dir env) ".tiff")) as Hin
      by (rewrite Hc; apply in_or_app; right; now right).
    now apply glob_In in Hin.
Qed.

End NameFacts.

(** ** The per-layer pipeline *)

Section Pipeline.

Variable env : Env.

Lemma get_geotiff_info_fails (path : string) (w : world) :
  extraction_fails env path = true ->
  exists line,
    get_geotiff_info env path w
    = (Ok None, mkWorld (stdout w ++ [line]) (dirs w) (files w)).
Proof.
  unfold extraction_fails, get_geotiff_info, try_except, bind, run_checked, lift.
  destruct (subprocess_run env ["gdalinfo"; "-json"; path]) as [out | msg |]; intros H.
  - unfold parse_geotiff_info. cbn.
    destruct (json_loads env out) as [msg | info]; [| discriminate]. cbn.
    eexists. reflexivity.
  - cbn. eexists. reflexivity.
  - discriminate.
Qed.

Lemma get_geotiff_info_ok (path out : string) (r : bounds * list Z * R) (w : world) :
  subprocess_run env ["gdalinfo"; "-json"; path] = Completed out ->
  parse_geotiff_info env out = Ok r ->
  get_geotiff_info env path w = (Ok (Some r), w).
Proof.
  intros Hrun Hparse.
  unfold get_geotiff_info, try_except, bind, run_checked, lift.
  rewrite Hrun. cbn. rewrite Hparse. reflexivity.
Qed.

(** A key or an array element that is missing is not caught. *)
Lemma get_geotiff_info_uncaught (path out : string) (e : exn) (w : world) :
  subprocess_run env ["gdalinfo"; "-json"; path] = Completed out ->
  parse_geotiff_info env out = Raise e ->
  (forall msg, e <> JSONDecodeError msg) ->
  (forall msg, e <> CalledProcessError msg) ->
  get_geotiff_info env path w = (Raise e, w).
Proof.
  intros Hrun Hparse Hj Hc.
  unfold get_geotiff_info, try_except, bind, run_checked, lift.
  rewrite Hrun. cbn. rewrite Hparse.
  destruct e; try reflexivity.
  - now destruct (Hc msg).
  - now destruct (Hj msg).
Qed.

Lemma generate_tiles_extraction_fails (path out folder : string) (w : world) :
  extraction_fails env path = true ->
  exists line,
    generate_tiles env path out folder w
    = (Ok None,
       mkWorld (stdout w ++ ["Processing " ++ folder ++ "..."; line;
                             "Failed to get info for " ++ path])
               (dirs w) (files w)).
Proof.
  intros H. unfold generate_tiles.
  destruct (get_geotiff_info_fails path
              (mkWorld (stdout w ++ ["Processing " ++ folder ++ "..."]) (dirs w) (files w)) H)
    as (line & Hinfo).
  exists line. unfold bind at 1. unfold print at 1. unfold bind at 1.
  rewrite Hinfo. unfold bind, print, ret. cbn [stdout dirs files].
  now rewrite <- !app_assoc.
Qed.

Lemma generate_tiles_tiling_fails (path out folder o msg : string)
  (b : bounds) (size : list Z) (pixel_size : R) (image_width lo hi : Z) (w : world) :
  subprocess_run env ["gdalinfo"; "-json"; path] = Completed o ->
  parse_geotiff_info env o = Ok (b, size, pixel_size) ->
  list_getitem size 0 = Ok image_width ->
  calculate_zoom_levels pixel_size image_width = Ok (lo, hi) ->
  makedirs_ok env (os_path_join out folder) = true ->
  subprocess_run env (gdal2tiles_cmd lo hi path (os_path_join out folder)) = Failed msg ->
  generate_tiles env path out folder w
  = (Ok None,
     mkWorld (stdout w ++ ["Processing " ++ folder ++ "...";
                           "  Bounds: " ++ bounds_repr env b;
                           "  Suggested zoom levels: " ++ str_of_Z lo ++ "-" ++ str_of_Z hi;
                           "  Running: "
                             ++ String.concat " " (gdal2tiles_cmd lo hi path (os_path_join out folder));
                           "  ✗ Error generating tiles for " ++ folder ++ ": " ++ msg])
             (os_path_join out folder :: dirs w) (files w)).
Proof.
  intros Hrun Hparse Hsize Hzoom Hmk Htiles. unfold generate_tiles.
  unfold bind at 1. unfold print at 1. unfold bind at 1.
  rewrite (get_geotiff_info_ok path o _ _ Hrun Hparse).
  unfold bind, lift, print, ret, os_makedirs, try_except, run_checked.
  rewrite Hsize, Hzoom. cbn [stdout dirs files]. rewrite Hmk. cbn [stdout dirs files].
  rewrite Htiles. unfold raise, ret. cbn [stdout dirs files].
  now rewrite <- !app_assoc.
Qed.

Lemma generate_tiles_success (path out folder o t : string)
  (b : bounds) (size : list Z) (pixel_size : R) (image_width lo hi : Z) (w : world) :
  subprocess_run env ["gdalinfo"; "-json"; path] = Completed o ->
  parse_geotiff_info env o = Ok (b, size, pixel_size) ->
  list_getitem size 0 = Ok image_width ->
  calculate_zoom_levels pixel_size image_width = Ok (lo, hi) ->
  makedirs_ok env (os_path_join out folder) = true ->
  subprocess_run env (gdal2tiles_cmd lo hi path (os_path_join out folder)) = Completed t ->
  generate_tiles env path out folder w
  = (Ok (Some (b, lo, hi)),
     mkWorld (stdout w ++ ["Processing " ++ folder ++ "...";
                           "  Bounds: " ++ bounds_repr env b;
                           "  Suggested zoom levels: " ++ str_of_Z lo ++ "-" ++ str_of_Z hi;
                           "  Running: "
                             ++ String.concat " " (gdal2tiles_cmd lo hi path (os_path_join out folder));
                           "  ✓ Tiles generated successfully for " ++ folder])
             (os_path_join out folder :: dirs w) (files w)).
Proof.
  intros Hrun Hparse Hsize Hzoom Hmk Htiles. unfold generate_tiles.
  unfold bind at 1. unfold print at 1. unfold bind at 1.
  rewrite (get_geotiff_info_ok path o _ _ Hrun Hparse).
  unfold bind, lift, print, ret, os_makedirs, try_except, run_checked.
  rewrite Hsize, Hzoom. cbn [stdout dirs files]. rewrite Hmk. cbn [stdout dirs files].
  rewrite Htiles. unfold raise, ret. cbn [stdout dirs files].
  now rewrite <- !app_assoc.
Qed.

(** The loop body stores what [generate_tiles] returns, and raises what it
    raises. *)
Lemma process_file_spec (cfgs : dict ortho_config) (name : string) (w : world) :
  process_file env cfgs name w
  = match generate_tiles env (path_div (geotiff_dir env) name) (tiles_dir env) (stem name) w with
    | (Ok r, w') => (Ok (dict_set cfgs (stem name) (ortho_config_of r name)), w')
    | (Raise e, w') => (Raise e, w')
    end.
Proof.
  unfold process_file, bind, ret.
  destruct (generate_tiles env _ _ _ w) as [[r | e] w']; reflexivity.
Qed.

Lemma process_file_inv (cfgs cfgs' : dict ortho_config) (name : string) (w w' : world) :
  process_file env cfgs name w = (Ok cfgs', w') ->
  exists r,
    generate_tiles env (path_div (geotiff_dir env) name) (tiles_dir env) (stem name) w
    = (Ok r, w')
    /\ cfgs' = dict_set cfgs (stem name) (ortho_config_of r name).
Proof.
  rewrite process_file_spec.
  destruct (generate_tiles env _ _ _ w) as [[r | e] w1]; intros [= <- <-].
  now exists r.
Qed.

Lemma process_all_app (l1 l2 : list string) :
  forall cfgs w,
    process_all env (l1 ++ l2) cfgs w
    = match process_all env l1 cfgs w with
      | (Ok cfgs', w') => process_all env l2 cfgs' w'
      | (Raise e, w') => (Raise e, w')
      end.
Proof.
  induction l1 as [| name l1 IH]; intros cfgs w; cbn [process_all app].
  - reflexivity.
  - unfold bind. destruct (process_file env cfgs name w) as [[d | e] w1]; [apply IH | reflexivity].
Qed.

Lemma process_all_cons_inv (name : string) (rest : list string)
  (cfgs cfgs' : dict ortho_config) (w w' : world) :
  process_all env (name :: rest) cfgs w = (Ok cfgs', w') ->
  exists d1 w1,
    process_file env cfgs name w = (Ok d1, w1)
    /\ process_all env rest d1 w1 = (Ok cfgs', w').
Proof.
  cbn [process_all]. unfold bind.
  destruct (process_file env cfgs name w) as [[d | e] w1]; [| discriminate].
  intros H. now exists d, w1.
Qed.

(** The loop keeps the keys it has, keeps them distinct, and leaves alone
    the entries whose name no processed file has. *)
Lemma process_all_keys (names : list string) :
  forall cfgs cfgs' w w' k,
    process_all env names cfgs w = (Ok cfgs', w') ->
    In k (dict_keys cfgs') <-> In k (dict_keys cfgs) \/ In k (map stem names).
Proof.
  induction names as [| name rest IH]; intros cfgs cfgs' w w' k H.
  - cbn in H. injection H as <- <-. cbn. intuition.
  - apply process_all_cons_inv in H. destruct H as (d1 & w1 & Hf & Hrest).
    apply process_file_inv in Hf. destruct Hf as (r & _ & ->).
    rewrite (IH _ _ _ _ k Hrest), dict_keys_set. cbn. intuition.
Qed.

Lemma process_all_NoDup (names : list string) :
  forall cfgs cfgs' w w',
    process_all env names cfgs w = (Ok cfgs', w') ->
    NoDup (dict_keys cfgs) -> NoDup (dict_keys cfgs').
Proof.
  induction names as [| name rest IH]; intros cfgs cfgs' w w' H Hnd.
  - cbn in H. now injection H as <- <-.
  - apply process_all_cons_inv in H. destruct H as (d1 & w1 & Hf & Hrest).
    apply process_file_inv in Hf. destruct Hf as (r & _ & ->).
    apply (IH _ _ _ _ Hrest). now apply dict_set_NoDup.
Qed.

Lemma process_all_untouched (names : list string) :
  forall cfgs cfgs' w w' k,
    process_all env names cfgs w = (Ok cfgs', w') ->
    (forall g, In g names -> stem g <> k) ->
    dict_get cfgs' k = dict_get cfgs k.
Proof.
  induction names as [| name rest IH]; intros cfgs cfgs' w w' k H Hk.
  - cbn in H. now injection H as <- <-.
  - apply process_all_cons_inv in H. destruct H as (d1 & w1 & Hf & Hrest).
    apply process_file_inv in Hf. destruct Hf as (r & _ & ->).
    rewrite (IH _ _ _ _ k Hrest) by (intros g Hg; apply Hk; now right).
    apply dict_get_set_other. apply Hk. now left.
Qed.

(** The last file processed under a name decides the entry of that name. *)
Lemma process_all_last (pre post : list string) (name : string)
  (cfgs cfgs' : dict ortho_config) (w w' : world) :
  process_all env (pre ++ name :: post) cfgs w = (Ok cfgs', w') ->
  (forall g, In g post -> stem g <> stem name) ->
  exists r,
    (forall w0,
       fst (generate_tiles env (path_div (geotiff_dir env) name) (tiles_dir env) (stem name) w0)
       = Ok r)
    /\ dict_get cfgs' (stem name) = Some (ortho_config_of r name).
Proof.
  intros H Hpost. rewrite process_all_app in H.
  destruct (process_all env pre cfgs w) as [[d0 | e] w0]; [| discriminate].
  apply process_all_cons_inv in H. destruct H as (d1 & w1 & Hf & Hrest).
  apply process_file_inv in Hf. destruct Hf as (r & Hgen & ->).
  exists r. split.
  - intros w2.
    rewrite (uniform_result _ w2 w0 (uniform_generate_tiles env _ _ _)).
    now rewrite Hgen.
  - rewrite (process_all_untouched _ _ _ _ _ _ Hrest Hpost).
    apply dict_get_set_same.
Qed.

End Pipeline.

(** ** Layers without bounds do not count *)

Section Exclusion.

Lemma dict_remove_absent_key {V} (d : dict V) (k : string) :
  ~ In k (dict_keys d) -> dict_remove d k = d.
Proof.
  unfold dict_remove, dict_keys. induction d as [| [k' v'] d IH]; cbn; intros Hn; [reflexivity |].
  destruct (String.eqb_spec k' k) as [-> | Hk]; cbn.
  - exfalso. apply Hn. now left.
  - f_equal. apply IH. intros Hin. apply Hn. now right.
Qed.

(** Removing the key of an entry takes its value out of the values and
    nothing else, when the keys are distinct. *)
Lemma dict_values_remove {V} (d : dict V) (k : string) (v : V) :
  NoDup (dict_keys d) ->
  dict_get d k = Some v ->
  exists l1 l2,
    dict_values d = (l1 ++ v :: l2)%list /\ dict_values (dict_remove d k) = (l1 ++ l2)%list.
Proof.
  unfold dict_keys, dict_values.
  induction d as [| [k' v'] d IH]; cbn; intros Hnd Hget; [discriminate |].
  inversion Hnd as [| ? ? Hnotin Hnd']; subst.
  destruct (String.eqb_spec k' k) as [-> | Hk]; cbn.
  - injection Hget as ->. exists [], (map snd d). split; [reflexivity |].
    cbn. f_equal. apply dict_remove_absent_key. exact Hnotin.
  - destruct (IH Hnd' Hget) as (l1 & l2 & H1 & H2).
    exists (v' :: l1), l2. cbn. unfold dict_remove in H2. now rewrite H1, H2.
Qed.

Lemma present_zooms_app (l1 l2 : list (option Z)) :
  present_zooms (l1 ++ l2) = (present_zooms l1 ++ present_zooms l2)%list.
Proof. unfold present_zooms. apply flat_map_app. Qed.

(** An entry without bounds and without zoom levels takes no part in the
    overall bounds and in the overall zoom range. *)
Lemma absent_entry_excluded (d : dict ortho_config) (k : string) (c : ortho_config) :
  NoDup (dict_keys d) ->
  dict_get d k = Some c ->
  cfg_bounds c = None -> cfg_min_zoom c = None -> cfg_max_zoom c = None ->
  all_bounds (dict_remove d k) = all_bounds d
  /\ all_min_zooms (dict_remove d k) = all_min_zooms d
  /\ all_max_zooms (dict_remove d k) = all_max_zooms d.
Proof.
  intros Hnd Hget Hb Hmin Hmax.
  destruct (dict_values_remove d k c Hnd Hget) as (l1 & l2 & H1 & H2).
  unfold all_bounds, all_min_zooms, all_max_zooms. rewrite H1, H2.
  rewrite !flat_map_app, !map_app, !present_zooms_app. cbn [flat_map map].
  rewrite Hb, Hmin, Hmax.
  change (present_zooms (None :: ?l)) with (present_zooms l).
  repeat split; reflexivity.
Qed.

Lemma dict_set_remove {V} (d : dict V) (k : string) (v : V) :
  NoDup (dict_keys d) ->
  dict_remove (dict_set d k v) k = dict_remove d k.
Proof.
  unfold dict_keys, dict_remove. induction d as [| [k' v'] d IH]; cbn; intros Hnd.
  - now rewrite String.eqb_refl.
  - inversion Hnd as [| ? ? Hnotin Hnd']; subst.
    destruct (String.eqb_spec k' k) as [-> | Hk]; cbn.
    + now rewrite String.eqb_refl.
    + destruct (String.eqb_spec k' k); [contradiction |]. cbn. f_equal. now apply IH.
Qed.

Lemma absent_config_excluded (d : dict ortho_config) (k name : string) :
  NoDup (dict_keys d) ->
  all_bounds (dict_set d k (absent_config name)) = all_bounds (dict_remove d k)
  /\ all_min_zooms (dict_set d k (absent_config name)) = all_min_zooms (dict_remove d k)
  /\ all_max_zooms (dict_set d k (absent_config name)) = all_max_zooms (dict_remove d k).
Proof.
  intros Hnd.
  pose proof (absent_entry_excluded (dict_set d k (absent_config name)) k (absent_config name)
                (dict_set_NoDup d k _ Hnd) (dict_get_set_same d k _)
                eq_refl eq_refl eq_refl) as (H1 & H2 & H3).
  rewrite dict_set_remove in H1, H2, H3 by exact Hnd.
  now rewrite H1, H2, H3.
Qed.

End Exclusion.

(** ** Failures of one layer *)

Section LayerFailures.

Variable env : Env.

Lemma process_file_extraction_fails (cfgs : dict ortho_config) (name : string) (w : world) :
  extraction_fails env (path_div (geotiff_dir env) name) = true ->
  exists w1,
    process_file env cfgs name w
    = (Ok (dict_set cfgs (stem name) (absent_config name)), w1)
    /\ dirs w1 = dirs w /\ files w1 = files w.
Proof.
  intros H. rewrite process_file_spec.
  destruct (generate_tiles_extraction_fails env _ (tiles_dir env) (stem name) w H)
    as (line & ->).
  eexists. split; [reflexivity | split; reflexivity].
Qed.

Lemma dict_set_In {V} (d : dict V) (k k0 : string) (v v0 : V) :
  In (k0, v0) (dict_set d k v) -> (k0, v0) = (k, v) \/ In (k0, v0) d.
Proof.
  induction d as [| [k' v'] d IH]; cbn.
  - intros [H | []]. left. now symmetry.
  - destruct (String.eqb_spec k' k) as [-> | Hk]; cbn.
    + intros [H | H]; [left; now symmetry | right; now right].
    + intros [H | H]; [right; now left |].
      destruct (IH H) as [Heq | Hin]; [now left | right; now right].
Qed.

Lemma ortho_config_of_source (r : option (bounds * Z * Z)) (name : string) :
  cfg_source_file (ortho_config_of r name) = name.
Proof. destruct r as [[[? ?] ?] |]; reflexivity. Qed.

(** Every entry of the result set is the record of its source file. *)
Lemma process_all_recorded (names : list string) :
  forall cfgs cfgs' w w',
    process_all env names cfgs w = (Ok cfgs', w') ->
    (forall k c, In (k, c) cfgs -> recorded env k c) ->
    forall k c, In (k, c) cfgs' -> recorded env k c.
Proof.
  induction names as [| name rest IH]; intros cfgs cfgs' w w' H Hinv.
  - cbn in H. now injection H as <- <-.
  - apply process_all_cons_inv in H. destruct H as (d1 & w1 & Hf & Hrest).
    apply process_file_inv in Hf. destruct Hf as (r & Hgen & ->).
    apply (IH _ _ _ _ Hrest). intros k c Hin.
    apply dict_set_In in Hin. destruct Hin as [[= -> ->] | Hin]; [| now apply Hinv].
    unfold recorded. rewrite ortho_config_of_source. split; [reflexivity |].
    exists r. split; [| reflexivity].
    intros w2. rewrite (uniform_result _ w2 w (uniform_generate_tiles env _ _ _)).
    now rewrite Hgen.
Qed.

(** The record of a file whose metadata extraction fails has no field. *)
Lemma recorded_extraction_fails (k : string) (c : ortho_config) :
  recorded env k c ->
  extraction_fails env (path_div (geotiff_dir env) (cfg_source_file c)) = true ->
  c = absent_config (cfg_source_file c).
Proof.
  intros (_ & r & Hr & Hc) Hfail.
  destruct (generate_tiles_extraction_fails env _ (tiles_dir env)
              (stem (cfg_source_file c)) empty_world Hfail) as (line & Hgen).
  specialize (Hr empty_world). rewrite Hgen in Hr. cbn in Hr. injection Hr as <-.
  exact Hc.
Qed.


(** C9: when the metadata of a file is extracted and [gdal2tiles.py] then
    exits with a status that is not zero, [generate_tiles] returns no bounds
    and no zoom levels, the loop stores an entry without bounds for the
    file, that entry adds nothing to the overall bounds, and the artifact
    lists the layer with [bounds: null]. *)
Theorem tiling_failure_discards_bounds (name o msg : string) (b : bounds)
  (size : list Z) (pixel_size : R) (image_width lo hi : Z)
  (cfgs : dict ortho_config) (w : world) :
  let path := path_div (geotiff_dir env) name in
  let tile_output_dir := os_path_join (tiles_dir env) (stem name) in
  subprocess_run env ["gdalinfo"; "-json"; path] = Completed o ->
  parse_geotiff_info env o = Ok (b, size, pixel_size) ->
  list_getitem size 0 = Ok image_width ->
  calculate_zoom_levels pixel_size image_width = Ok (lo, hi) ->
  makedirs_ok env tile_output_dir = true ->
  subprocess_run env (gdal2tiles_cmd lo hi path tile_output_dir) = Failed msg ->
  NoDup (dict_keys cfgs) ->
  fst (get_geotiff_info env path w) = Ok (Some (b, size, pixel_size))
  /\ fst (generate_tiles env path (tiles_dir env) (stem name) w) = Ok None
  /\ fst (process_file env cfgs name w)
     = Ok (dict_set cfgs (stem name) (absent_config name))
  /\ cfg_bounds (absent_config name) = None
  /\ all_bounds (dict_set cfgs (stem name) (absent_config name))
     = all_bounds (dict_remove cfgs (stem name))
  /\ js_layer env (stem name) (absent_config name)
     = "        {
            name: '" ++ stem name ++ "',
            url: '../tiles/" ++ stem name ++ "/{z}/{x}/{y}.png',
            bounds: null
        },
".
Proof.
  intros path tile_output_dir Hrun Hparse Hsize Hzoom Hmk Htiles Hnd.
  pose proof (generate_tiles_tiling_fails env path (tiles_dir env) (stem name) o msg
                b size pixel_size image_width lo hi w Hrun Hparse Hsize Hzoom Hmk Htiles)
    as Hgen.
  repeat split.
  - now rewrite (get_geotiff_info_ok env path o _ w Hrun Hparse).
  - now rewrite Hgen.
  - rewrite process_file_spec. fold path. now rewrite Hgen.
  - apply (absent_config_excluded cfgs (stem name) name Hnd).
Qed.


End LayerFailures.


Lemma tiling_failure_discards_bounds_witness :
  fst (generate_tiles env_tiles_fail (path_div (geotiff_dir env_tiles_fail) "siteA.tif")
         (tiles_dir env_tiles_fail) (stem "siteA.tif") empty_world) = Ok None
  /\ fst (process_file env_tiles_fail [] "siteA.tif" empty_world)
     = Ok (dict_set [] (stem "siteA.tif") (absent_config "siteA.tif"))
  /\ all_bounds (dict_set [] (stem "siteA.tif") (absent_config "siteA.tif")) = [].
Proof.
  destruct (tiling_failure_discards_bounds env_tiles_fail "siteA.tif" "{...}"
              "Command returned non-zero exit status 1."
              (mkBounds (-1) 0 1 2) [1024; 1024] (1 / 10)%R 1024 12 22 [] empty_world)
    as (_ & Hgen & Hfile & _ & Hall & _).
  - reflexivity.
  - reflexivity.
  - reflexivity.
  - apply calculate_zoom_levels_10cm.
  - reflexivity.
  - reflexivity.
  - constructor.
  - split; [exact Hgen | split; [exact Hfile | exact Hall]].
Defined.

(** The bounds and zoom levels of [siteA.tif] are computed and its tiles are
    generated, and the entry of [siteA] is then replaced by the record of
    [siteA.tiff], on which the metadata extraction fails. *)
Lemma same_stem_first_file :
  fst (process_file env_same_stem [] "siteA.tif" empty_world)
  = Ok [("siteA", mkConfig (Some (mkBounds (-1) 0 1 2)) (Some 12) (Some 22) "siteA.tif")].
Proof.
  rewrite process_file_spec.
  rewrite (generate_tiles_success env_same_stem _ _ _ "{...}" ""
             (mkBounds (-1) 0 1 2) [1024; 1024] (1 / 10)%R 1024 12 22 empty_world);
    try reflexivity.
  apply calculate_zoom_levels_10cm.
Qed.

Lemma same_stem_run :
  fst (process_all env_same_stem (geotiff_files env_same_stem) [] empty_world)
  = Ok [("siteA", absent_config "siteA.tiff")].
Proof.
  change (geotiff_files env_same_stem) with ["siteA.tif"; "siteA.tiff"].
  cbn [process_all]. unfold bind at 1.
  pose proof same_stem_first_file as H1.
  destruct (process_file env_same_stem [] "siteA.tif" empty_world) as [r1 w1].
  cbn in H1. subst r1.
  unfold bind.
  destruct (process_file_extraction_fails env_same_stem
              [("siteA", mkConfig (Some (mkBounds (-1) 0 1 2)) (Some 12) (Some 22) "siteA.tif")]
              "siteA.tiff" w1 eq_refl) as (w2 & -> & _).
  reflexivity.
Qed.


(** ** The worked example of the synthesizer *)

Section ThreeLayers.

Lemma three_layers_bounds :
  min_west bounds_north [bounds_east; bounds_south] = (-2)%R /\ min_south bounds_north [bounds_east; bounds_south] = (-1)%R
  /\ max_east bounds_north [bounds_east; bounds_south] = 3%R /\ max_north bounds_north [bounds_east; bounds_south] = 3%R.
Proof.
  unfold min_west, min_south, max_east, max_north, float_min, float_max.
  cbn [map fold_left west south east north bounds_north bounds_east bounds_south].
  repeat split; eval_minmax; reflexivity.
Qed.

Lemma three_layers_center :
  center_lat bounds_north [bounds_east; bounds_south] = 1%R /\ center_lng bounds_north [bounds_east; bounds_south] = (1 / 2)%R.
Proof.
  destruct three_layers_bounds as (Hw & Hs & He & Hn).
  unfold center_lat, center_lng. rewrite Hw, Hs, He, Hn. split; lra.
Qed.

Lemma three_layers_max_range : max_range bounds_north [bounds_east; bounds_south] = 5%R.
Proof.
  destruct three_layers_bounds as (Hw & Hs & He & Hn).
  unfold max_range. rewrite Hw, Hs, He, Hn. eval_minmax. lra.
Qed.

Lemma three_layers_initial_zoom : initial_zoom bounds_north [bounds_east; bounds_south] = Ok 4.
Proof.
  rewrite initial_zoom_positive by (rewrite three_layers_max_range; lra).
  rewrite three_layers_max_range.
  assert (INR 5 < log2 (5 * 10))%R as Hlo by (apply log2_strictly_above; simpl; lra).
  assert (log2 (5 * 10) < INR 6)%R as Hhi by (apply log2_below; simpl; lra).
  simpl in Hlo, Hhi.
  rewrite (py_int_between 4); [reflexivity | lia | simpl; lra].
Qed.

(** C7: for layers with the bounds (w=-1,s=0,e=1,n=2), (w=2,s=1,e=3,n=3)
    and (w=-2,s=-1,e=0,n=1) the overall bounds are west=-2, south=-1,
    east=3, north=3, the center is (lat=1, lng=1/2), and the synthesizer
    prints and writes that center. *)
Theorem overall_bounds_three_layers (env : Env) (cfgs : dict ortho_config)
  (out : string) (w : world) :
  all_bounds cfgs = [mkBounds (-1) 0 1 2; mkBounds 2 1 3 3; mkBounds (-2) (-1) 0 1] ->
  open_ok env (js_path out) = true ->
  let b := mkBounds (-1) 0 1 2 in
  let bs := [mkBounds 2 1 3 3; mkBounds (-2) (-1) 0 1] in
  min_west b bs = (-2)%R /\ min_south b bs = (-1)%R
  /\ max_east b bs = 3%R /\ max_north b bs = 3%R
  /\ center_lat b bs = ((min_south b bs + max_north b bs) / 2)%R
  /\ center_lng b bs = ((min_west b bs + max_east b bs) / 2)%R
  /\ center_lat b bs = 1%R /\ center_lng b bs = (1 / 2)%R
  /\ update_map_config env cfgs out w
     = (Ok tt,
        mkWorld (stdout w ++ ["Updated map configuration:";
                              "  Center: " ++ float_6f env 1 ++ ", " ++ float_6f env (1 / 2);
                              "  Initial zoom: 4";
                              "  Zoom range: " ++ str_of_Z (overall_min_zoom cfgs) ++ "-"
                                ++ str_of_Z (overall_max_zoom cfgs)])
                (dirs w)
                ((js_path out,
                  fold_left (fun js '(ortho_name, config) => js ++ js_layer env ortho_name config)
                            cfgs
                            (js_header env 1 (1 / 2) 4
                                       (overall_min_zoom cfgs) (overall_max_zoom cfgs))
                  ++ js_footer) :: files w)).
Proof.
  intros Hb Hopen b bs.
  destruct three_layers_bounds as (Hw & Hs & He & Hn).
  destruct three_layers_center as (Hlat & Hlng).
  change (all_bounds cfgs = [bounds_north; bounds_east; bounds_south]) in Hb.
  repeat split; try assumption.
  rewrite (update_map_config_bounds env cfgs out bounds_north [bounds_east; bounds_south] 4 w Hb
             three_layers_initial_zoom Hopen).
  unfold js_config. now rewrite Hlat, Hlng.
Qed.

End ThreeLayers.

Lemma overall_bounds_three_layers_witness :
  center_lat (mkBounds (-1) 0 1 2) [mkBounds 2 1 3 3; mkBounds (-2) (-1) 0 1] = 1%R
  /\ center_lng (mkBounds (-1) 0 1 2) [mkBounds 2 1 3 3; mkBounds (-2) (-1) 0 1] = (1 / 2)%R
  /\ read_file (js_path "/srv/map")
       (files (snd (update_map_config env_info_fails three_layers "/srv/map" empty_world)))
     = Some (js_header env_info_fails 1 (1 / 2) 4 10 22
             ++ js_layer env_info_fails "north"
                  (mkConfig (Some bounds_north) (Some 12) (Some 22) "north.tif")
             ++ js_layer env_info_fails "east"
                  (mkConfig (Some bounds_east) (Some 10) (Some 20) "east.tif")
             ++ js_layer env_info_fails "south"
                  (mkConfig (Some bounds_south) (Some 11) (Some 21) "south.tiff")
             ++ js_footer).
Proof.
  destruct (overall_bounds_three_layers env_info_fails three_layers "/srv/map" empty_world
              eq_refl eq_refl) as (_ & _ & _ & _ & _ & _ & Hlat & Hlng & Hrun).
  split; [exact Hlat |]. split; [exact Hlng |].
  rewrite Hrun. reflexivity.
Defined.


(** ** The entry point *)

Section KeepsFiles.

Lemma keeps_files_ret {A} (a : A) : keeps_files (ret a).
Proof. intros w. reflexivity. Qed.

Lemma keeps_files_raise {A} (e : exn) : keeps_files (@raise A e).
Proof. intros w. reflexivity. Qed.

Lemma keeps_files_lift {A} (r : result A) : keeps_files (lift r).
Proof. intros w. reflexivity. Qed.

Lemma keeps_files_print (line : string) : keeps_files (print line).
Proof. intros w. reflexivity. Qed.

Lemma keeps_files_bind {A B} (m : M A) (k : A -> M B) :
  keeps_files m -> (forall a, keeps_files (k a)) -> keeps_files (bind m k).
Proof.
  intros Hm Hk w. unfold bind. specialize (Hm w).
  destruct (m w) as [[a | e] w1]; cbn in *; [| exact Hm].
  now rewrite Hk.
Qed.

Lemma keeps_files_try_except {A} (body : M A) (handler : exn -> option (M A)) :
  keeps_files body ->
  (forall e h, handler e = Some h -> keeps_files h) ->
  keeps_files (try_except body handler).
Proof.
  intros Hm Hh w. unfold try_except. specialize (Hm w).
  destruct (body w) as [[a | e] w1]; cbn in *; [exact Hm |].
  destruct (handler e) as [h |] eqn:He; [| exact Hm].
  now rewrite (Hh e h He).
Qed.

Variable env : Env.

Lemma keeps_files_run_checked (cmd : list string) : keeps_files (run_checked env cmd).
Proof. intros w. unfold run_checked. destruct (subprocess_run env cmd); reflexivity. Qed.

Lemma keeps_files_os_makedirs (path : string) : keeps_files (os_makedirs env path).
Proof. intros w. unfold os_makedirs. destruct (makedirs_ok env path); reflexivity. Qed.

End KeepsFiles.

Create HintDb keeps_files.
#[local] Hint Resolve keeps_files_ret keeps_files_raise keeps_files_lift keeps_files_print
  keeps_files_run_checked keeps_files_os_makedirs : keeps_files.

Ltac keeps_files_step :=
  match goal with
  | |- keeps_files (bind _ _) => apply keeps_files_bind; [| intros ?]
  | |- keeps_files (try_except _ _) =>
      apply keeps_files_try_except;
      [| let e := fresh "e" in let h := fresh "h" in let H := fresh "H" in
         intros e h H; destruct e; inversion H; subst; clear H]
  | |- keeps_files (match ?x with _ => _ end) => destruct x
  | |- keeps_files (let '(_, _) := ?x in _) => destruct x
  | |- keeps_files _ => solve [auto with keeps_files]
  end.

Section Main.

Variable env : Env.

Lemma keeps_files_generate_tiles (path out folder : string) :
  keeps_files (generate_tiles env path out folder).
Proof. unfold generate_tiles, get_geotiff_info. repeat keeps_files_step. Qed.

Lemma keeps_files_process_all (names : list string) :
  forall cfgs, keeps_files (process_all env names cfgs).
Proof.
  induction names as [| name rest IH]; intros cfgs; cbn [process_all].
  - apply keeps_files_ret.
  - apply keeps_files_bind; [| intros d; apply IH].
    unfold process_file. pose proof keeps_files_generate_tiles. repeat keeps_files_step.
Qed.

Lemma keeps_files_print_found (names : list string) :
  forall i, keeps_files (print_found i names).
Proof.
  induction names as [| name rest IH]; intros i; cbn [print_found].
  - apply keeps_files_ret.
  - apply keeps_files_bind; [apply keeps_files_print | intros _; apply IH].
Qed.

Lemma print_found_ok (names : list string) :
  forall i w, fst (print_found i names w) = Ok tt.
Proof.
  induction names as [| name rest IH]; intros i w; cbn [print_found].
  - reflexivity.
  - unfold bind, print. apply IH.
Qed.

Lemma bind_print {B} (line : string) (k : unit -> M B) (w : world) :
  bind (print line) k w = k tt (mkWorld (stdout w ++ [line]) (dirs w) (files w)).
Proof. reflexivity. Qed.

Lemma bind_ok {A B} (m : M A) (k : A -> M B) (w w' : world) (a : A) :
  m w = (Ok a, w') -> bind m k w = k a w'.
Proof. intros H. unfold bind. now rewrite H. Qed.

Lemma bind_raise {A B} (m : M A) (k : A -> M B) (w w' : world) (e : exn) :
  m w = (Raise e, w') -> bind m k w = (Raise e, w').
Proof. intros H. unfold bind. now rewrite H. Qed.

Lemma check_gdal_available (w : world) :
  gdal_available env = true -> check_gdal env w = (Ok tt, w).
Proof.
  unfold gdal_available, check_gdal, try_except, bind, run_checked.
  destruct (subprocess_run env ["gdalinfo"; "--version"]); try discriminate.
  destruct (subprocess_run env ["gdal2tiles.py"; "--help"]); try discriminate.
  reflexivity.
Qed.

Lemma check_gdal_nonzero (w : world) :
  gdal_exits_nonzero env = true ->
  check_gdal env w
  = (Raise (SystemExit 1),
     mkWorld (stdout w ++ ["Error: GDAL tools not found. Please install GDAL:";
                           "  Ubuntu/Debian: sudo apt-get install gdal-bin";
                           "  macOS: brew install gdal";
                           "  Windows: Install OSGeo4W or use conda"])
             (dirs w) (files w)).
Proof.
  unfold gdal_exits_nonzero, check_gdal, try_except, bind, run_checked.
  destruct (subprocess_run env ["gdalinfo"; "--version"]); try discriminate.
  - destruct (subprocess_run env ["gdal2tiles.py"; "--help"]); try discriminate.
    intros _. cbn. now rewrite <- !app_assoc.
  - intros _. cbn. now rewrite <- !app_assoc.
Qed.

(** A program that is not installed is not what the handler catches. *)
Lemma check_gdal_not_installed (w : world) :
  subprocess_run env ["gdalinfo"; "--version"] = NotFound ->
  check_gdal env w = (Raise FileNotFoundError, w).
Proof.
  intros H. unfold check_gdal, try_except, bind, run_checked. now rewrite H.
Qed.

Lemma world_at_loop_files (w : world) : files (world_at_loop env w) = files w.
Proof. unfold world_at_loop. now rewrite keeps_files_print_found. Qed.

(** [main], once the pre-flight check passed and some file was found. *)
Lemma main_processing (w : world) :
  gdal_available env = true ->
  geotiff_files env <> [] ->
  main env w
  = match process_all env (geotiff_files env) [] (world_at_loop env w) with
    | (Ok d, w2) =>
        match update_map_config env d (project_dir env)
                (mkWorld (stdout w2 ++ ["
Updating map configuration..."]) (dirs w2) (files w2)) with
        | (Ok _, w3) =>
            (Ok tt,
             mkWorld (stdout w3 ++ ["
✓ Tile generation complete!";
                                    "✓ Generated tiles in: " ++ tiles_dir env;
                                    "✓ Updated map configuration";
                                    "
To view your map:";
                                    "1. Upload the 'web' and 'tiles' directories to your S3 bucket";
                                    "2. Enable static website hosting on the S3 bucket";
                                    "3. Set index.html as the index document"])
                     (dirs w3) (files w3))
        | (Raise e, w3) => (Raise e, w3)
        end
    | (Raise e, w2) => (Raise e, w2)
    end.
Proof.
  intros Hgdal Hfiles. unfold main. rewrite !bind_print.
  rewrite (bind_ok _ _ _ _ _ (check_gdal_available _ Hgdal)).
  destruct (geotiff_files env) as [| f fs] eqn:Hf; [contradiction |].
  unfold world_at_loop. rewrite Hf. rewrite !bind_print.
  cbn [stdout dirs files]. rewrite <- !app_assoc. cbn [app].
  set (w0 := mkWorld _ _ _).
  pose proof (print_found_ok (f :: fs) 1 w0) as Hpf.
  destruct (print_found 1 (f :: fs) w0) as [rp w1] eqn:Hp. cbn in Hpf. subst rp.
  rewrite (bind_ok _ _ _ _ _ Hp). cbn [snd].
  unfold bind at 1.
  destruct (process_all env (f :: fs) [] w1) as [[d | e] w2]; [| reflexivity].
  rewrite bind_print. unfold bind at 1.
  destruct (update_map_config env d (project_dir env) _) as [[[] | e] w3]; [| reflexivity].
  rewrite !bind_print. unfold print. cbn [stdout dirs files].
  now rewrite <- !app_assoc.
Qed.

End Main.

Section ExitStatus.

Variable env : Env.

Lemma all_bounds_cons (k : string) (c : ortho_config) (d : dict ortho_config) :
  all_bounds ((k, c) :: d)
  = (match cfg_bounds c with Some b => [b] | None => [] end ++ all_bounds d)%list.
Proof. reflexivity. Qed.

Lemma all_bounds_nil_set (d : dict ortho_config) (k name : string) :
  all_bounds d = [] -> all_bounds (dict_set d k (absent_config name)) = [].
Proof.
  induction d as [| [k' c'] d IH]; cbn [dict_set]; intros H; [reflexivity |].
  rewrite all_bounds_cons in H. apply app_eq_nil in H. destruct H as [Hc Hd].
  destruct (String.eqb k' k).
  - rewrite all_bounds_cons. cbn. exact Hd.
  - rewrite all_bounds_cons, Hc. cbn. now apply IH.
Qed.

(** When the metadata extraction fails on every file the loop still ends,
    with a result set in which no layer has bounds. *)
Lemma process_all_all_fail (names : list string) :
  forall cfgs w,
    (forall name, In name names ->
                  extraction_fails env (path_div (geotiff_dir env) name) = true) ->
    all_bounds cfgs = [] ->
    exists d w', process_all env names cfgs w = (Ok d, w') /\ all_bounds d = [].
Proof.
  induction names as [| name rest IH]; intros cfgs w Hfail Hnil.
  - exists cfgs, w. now split.
  - destruct (process_file_extraction_fails env cfgs name w (Hfail name (or_introl eq_refl)))
      as (w1 & Hf & _).
    destruct (IH (dict_set cfgs (stem name) (absent_config name)) w1) as (d & w' & Hrun & Hd).
    + intros g Hg. apply Hfail. now right.
    + now apply all_bounds_nil_set.
    + exists d, w'. split; [| exact Hd].
      cbn [process_all]. unfold bind. now rewrite Hf.
Qed.

Lemma main_no_bounds (w w2 : world) (d : dict ortho_config) :
  gdal_available env = true ->
  geotiff_files env <> [] ->
  process_all env (geotiff_files env) [] (world_at_loop env w) = (Ok d, w2) ->
  all_bounds d = [] ->
  fst (main env w) = Ok tt
  /\ files (snd (main env w)) = files w
  /\ In "No valid ortho bounds found" (stdout (snd (main env w))).
Proof.
  intros Hgdal Hfiles Hrun Hnil.
  rewrite (main_processing env w Hgdal Hfiles), Hrun.
  rewrite update_map_config_no_bounds by exact Hnil. cbn [fst snd files stdout].
  split; [reflexivity |]. split.
  - pose proof (keeps_files_process_all env (geotiff_files env) [] (world_at_loop env w)) as Hk.
    rewrite Hrun in Hk. cbn in Hk. now rewrite Hk, world_at_loop_files.
  - apply in_or_app. left. apply in_or_app. right. now left.
Qed.

(** C4: when no layer has bounds the synthesizer prints one line, returns
    without an exception and writes no file; and a run whose loop ends with
    such a result set ends without an exception, with exit status 0 and
    with the files as they were. *)
Theorem no_bounds_no_artifact (cfgs : dict ortho_config) (out : string) (w : world) :
  all_bounds cfgs = [] ->
  update_map_config env cfgs out w
  = (Ok tt, mkWorld (stdout w ++ ["No valid ortho bounds found"]) (dirs w) (files w))
  /\ files (snd (update_map_config env cfgs out w)) = files w
  /\ (forall w0 w2,
        gdal_available env = true ->
        geotiff_files env <> [] ->
        process_all env (geotiff_files env) [] (world_at_loop env w0) = (Ok cfgs, w2) ->
        fst (main env w0) = Ok tt
        /\ exit_status (fst (main env w0)) = 0
        /\ files (snd (main env w0)) = files w0
        /\ In "No valid ortho bounds found" (stdout (snd (main env w0)))).
Proof.
  intros Hnil. split; [| split].
  - now apply update_map_config_no_bounds.
  - now rewrite update_map_config_no_bounds.
  - intros w0 w2 Hgdal Hfiles Hrun.
    destruct (main_no_bounds w0 w2 cfgs Hgdal Hfiles Hrun Hnil) as (Hok & Hf & Hin).
    repeat split; try assumption. now rewrite Hok.
Qed.


End ExitStatus.

Lemma no_bounds_no_artifact_witness :
  update_map_config env_info_fails [("siteA", absent_config "siteA.tif")] "/srv/map" empty_world
  = (Ok tt, mkWorld ["No valid ortho bounds found"] [] [])
  /\ exit_status (fst (main env_info_fails empty_world)) = 0
  /\ files (snd (main env_info_fails empty_world)) = [].
Proof.
  destruct (no_bounds_no_artifact env_info_fails [("siteA", absent_config "siteA.tif")]
              "/srv/map" empty_world eq_refl) as (Hupd & _ & Hmain).
  split; [exact Hupd |].
  destruct (Hmain empty_world
              (snd (process_all env_info_fails (geotiff_files env_info_fails) []
                      (world_at_loop env_info_fails empty_world))))
    as (_ & Hexit & Hfiles & _).
  - reflexivity.
  - discriminate.
  - reflexivity.
  - split; [exact Hexit | exact Hfiles].
Defined.



(** ** A run from end to end *)

Section OneRaster.

Variables repr fmt : R -> string.

Lemma one_raster_initial_zoom : initial_zoom (mkBounds (-1) 0 1 2) [] = Ok 5.
Proof.
  assert (max_range (mkBounds (-1) 0 1 2) [] = 2%R) as Hrange.
  { unfold max_range, max_north, min_south, max_east, min_west, float_min, float_max.
    cbn [map fold_left west south east north]. eval_minmax. lra. }
  rewrite initial_zoom_positive by (rewrite Hrange; lra).
  rewrite Hrange.
  assert (INR 4 < log2 (2 * 10))%R as Hlo by (apply log2_strictly_above; simpl; lra).
  assert (log2 (2 * 10) < INR 5)%R as Hhi by (apply log2_below; simpl; lra).
  simpl in Hlo, Hhi.
  rewrite (py_int_between 5); [reflexivity | lia | simpl; lra].
Qed.

Lemma one_raster_center :
  center_lat (mkBounds (-1) 0 1 2) [] = 1%R /\ center_lng (mkBounds (-1) 0 1 2) [] = 0%R.
Proof.
  unfold center_lat, center_lng, max_north, min_south, max_east, min_west,
    float_min, float_max.
  cbn [map fold_left west south east north]. split; lra.
Qed.

(** One georeferenced raster of 0.1 map units per pixel: the tiles are asked
    for at the zoom levels 12-22, the artifact is written with the center
    (1, 0) and the initial zoom 5, and the run returns. *)
Example main_one_raster :
  main (env_one_raster repr fmt) empty_world
  = (Ok tt,
     mkWorld
       ["GeoTIFF to Web Tiles Generator";
        "========================================";
        "Found 1 GeoTIFF files to process:";
        "  1. siteA.tif";
        "Processing siteA...";
        "  Bounds: {'west': " ++ repr (-1) ++ ", 'south': " ++ repr 0
          ++ ", 'east': " ++ repr 1 ++ ", 'north': " ++ repr 2 ++ "}";
        "  Suggested zoom levels: 12-22";
        "  Running: gdal2tiles.py -z 12-22 -w none --processes=4 /srv/map/orthos/siteA.tif /srv/map/tiles/siteA";
        "  ✓ Tiles generated successfully for siteA";
        "
Updating map configuration...";
        "Updated map configuration:";
        "  Center: " ++ fmt 1 ++ ", " ++ fmt 0;
        "  Initial zoom: 5";
        "  Zoom range: 12-22";
        "
✓ Tile generation complete!";
        "✓ Generated tiles in: /srv/map/tiles";
        "✓ Updated map configuration";
        "
To view your map:";
        "1. Upload the 'web' and 'tiles' directories to your S3 bucket";
        "2. Enable static website hosting on the S3 bucket";
        "3. Set index.html as the index document"]
       ["/srv/map/tiles/siteA"]
       [("/srv/map/web/js/map.js",
         (js_header (env_one_raster repr fmt) 1 0 5 12 22
          ++ js_layer (env_one_raster repr fmt) "siteA"
               (mkConfig (Some (mkBounds (-1) 0 1 2)) (Some 12) (Some 22) "siteA.tif"))
         ++ js_footer)]).
Proof.
  rewrite main_processing by (reflexivity || discriminate).
  change (geotiff_files (env_one_raster repr fmt)) with ["siteA.tif"].
  cbn [process_all]. unfold bind at 1. rewrite process_file_spec.
  rewrite (generate_tiles_success (env_one_raster repr fmt) _ _ _ "{...}" ""
             (mkBounds (-1) 0 1 2) [1024; 1024] (1 / 10)%R 1024 12 22);
    [| reflexivity | reflexivity | reflexivity | apply calculate_zoom_levels_10cm
     | reflexivity | reflexivity].
  unfold ret.
  rewrite (update_map_config_bounds (env_one_raster repr fmt)
             [("siteA", mkConfig (Some (mkBounds (-1) 0 1 2)) (Some 12) (Some 22) "siteA.tif")]
             "/srv/map" (mkBounds (-1) 0 1 2) [] 5 _ eq_refl
             one_raster_initial_zoom eq_refl).
  destruct one_raster_center as (Hlat & Hlng).
  unfold js_config. rewrite Hlat, Hlng.
  reflexivity.
Qed.

End OneRaster.

(** * Further properties of the code *)

(** ** More on the zoom range estimator *)

Section ZoomMore.

Lemma py_int_le (x y : R) : (x <= y)%R -> py_int x <= py_int y.
Proof.
  intros Hxy. destruct (Rle_dec 0 x) as [Hx | Hx].
  - rewrite !py_int_nonneg by lra. now apply Zfloor_le.
  - assert (x < 0)%R as Hx' by lra.
    destruct (Rle_dec 0 y) as [Hy | Hy].
    + pose proof (py_int_neg_le0 x Hx').
      assert (0 <= py_int y) by (apply py_int_lower; [lia | exact Hy]). lia.
    + rewrite !py_int_neg by lra. now apply Zceil_le.
Qed.

Lemma zoom_range_of_max_le (z1 z2 : Z) :
  z1 <= z2 -> snd (zoom_range_of z1) <= snd (zoom_range_of z2).
Proof.
  intros H. unfold zoom_range_of.
  destruct (Z.ltb_spec 18 (Z.min (Z.max 1 (z1 - 8)) (Z.min 22 (z1 + 4))));
    destruct (Z.ltb_spec 18 (Z.min (Z.max 1 (z2 - 8)) (Z.min 22 (z2 + 4))));
    cbn; lia.
Qed.

Lemma calculate_zoom_levels_nonzero (pixel_size : R) (image_width : Z) :
  pixel_size <> 0%R ->
  calculate_zoom_levels pixel_size image_width
  = Ok (zoom_range_of (py_int (log2 (meters_per_pixel_zoom0 / Rabs pixel_size)))).
Proof.
  intros H. now rewrite calculate_zoom_levels_eq, optimal_zoom_nonzero.
Qed.






Lemma zoom_range_of_width (z : Z) :
  (-3 <= z -> snd (zoom_range_of z) - fst (zoom_range_of z) <= 12)
  /\ (1 <= z <= 22 -> fst (zoom_range_of z) <= z <= snd (zoom_range_of z))
  /\ (23 <= z -> snd (zoom_range_of z) < z).
Proof.
  unfold zoom_range_of.
  destruct (Z.ltb_spec 18 (Z.min (Z.max 1 (z - 8)) (Z.min 22 (z + 4))));
    cbn [fst snd]; lia.
Qed.

Lemma py_int_below (k : Z) (x : R) : (0 <= x < IZR k)%R -> py_int x < k.
Proof.
  intros [H0 Hk]. rewrite py_int_nonneg by exact H0.
  pose proof (Zfloor_bound x) as [Hf _].
  apply lt_IZR. lra.
Qed.



End ZoomMore.

(** ** More on the metadata extractor *)

Section ExtractorMore.

Variable env : Env.

(** Once the output is JSON, only a missing key or a short array can make
    the reading of the document raise. *)
Lemma parse_geotiff_info_raises (out : string) (info : gdalinfo_json) (e : exn) :
  json_loads env out = inr info ->
  parse_geotiff_info env out = Raise e ->
  (exists key, e = KeyError key) \/ e = IndexError.
Proof.
  intros Hjson. unfold parse_geotiff_info, getitem, list_getitem.
  rewrite Hjson. cbn [rbind].
  destruct (cornerCoordinates info) as [corners |]; cbn [rbind];
    [| intros [= <-]; eauto].
  destruct (lowerLeft corners) as [ll |]; cbn [rbind]; [| intros [= <-]; eauto].
  destruct (upperRight corners) as [ur |]; cbn [rbind]; [| intros [= <-]; eauto].
  destruct (nth_error ll 0); cbn [rbind]; [| intros [= <-]; eauto].
  destruct (nth_error ll 1); cbn [rbind]; [| intros [= <-]; eauto].
  destruct (nth_error ur 0); cbn [rbind]; [| intros [= <-]; eauto].
  destruct (nth_error ur 1); cbn [rbind]; [| intros [= <-]; eauto].
  destruct (size info); cbn [rbind]; [| intros [= <-]; eauto].
  destruct (geoTransform info) as [g |]; cbn [rbind]; [| intros [= <-]; eauto].
  destruct (nth_error g 1); cbn [rbind]; [discriminate | intros [= <-]; eauto].
Qed.

Lemma get_geotiff_info_parsed (path out : string) (info : gdalinfo_json) (w : world) :
  subprocess_run env ["gdalinfo"; "-json"; path] = Completed out ->
  json_loads env out = inr info ->
  get_geotiff_info env path w
  = (match parse_geotiff_info env out with
     | Ok r => Ok (Some r)
     | Raise e => Raise e
     end, w).
Proof.
  intros Hrun Hjson.
  destruct (parse_geotiff_info env out) as [r | e] eqn:Hparse.
  - now apply get_geotiff_info_ok with out.
  - apply get_geotiff_info_uncaught with out; try assumption.
    + intros msg ->.
      destruct (parse_geotiff_info_raises out info _ Hjson Hparse) as [[k Hk] | Hk];
        discriminate.
    + intros msg ->.
      destruct (parse_geotiff_info_raises out info _ Hjson Hparse) as [[k Hk] | Hk];
        discriminate.
Qed.

(** X5: [get_geotiff_info] answers with no bounds exactly when [gdalinfo]
    exits with a status that is not zero or prints what is not JSON; it then
    prints one line and changes nothing else; and when [gdalinfo] is not
    installed the [FileNotFoundError] is not caught. *)
Theorem get_geotiff_info_none (path : string) (w : world) :
  (fst (get_geotiff_info env path w) = Ok None <-> extraction_fails env path = true)
  /\ (extraction_fails env path = true ->
      exists line,
        snd (get_geotiff_info env path w)
        = mkWorld (stdout w ++ [line]) (dirs w) (files w))
  /\ (subprocess_run env ["gdalinfo"; "-json"; path] = NotFound ->
      get_geotiff_info env path w = (Raise FileNotFoundError, w)).
Proof.
  split; [| split].
  - split.
    + unfold extraction_fails.
      destruct (subprocess_run env ["gdalinfo"; "-json"; path]) as [out | msg |] eqn:Hrun.
      * destruct (json_loads env out) as [msg | info] eqn:Hjson; [reflexivity |].
        rewrite (get_geotiff_info_parsed path out info w Hrun Hjson). cbn.
        destruct (parse_geotiff_info env out); discriminate.
      * reflexivity.
      * unfold get_geotiff_info, try_except, bind, run_checked. rewrite Hrun.
        cbn. discriminate.
    + intros H. destruct (get_geotiff_info_fails env path w H) as (line & ->).
      reflexivity.
  - intros H. destruct (get_geotiff_info_fails env path w H) as (line & ->).
    now exists line.
  - intros Hrun. unfold get_geotiff_info, try_except, bind, run_checked.
    now rewrite Hrun.
Qed.

Lemma generate_tiles_parse_raises (path out outdir folder : string)
  (info : gdalinfo_json) (e : exn) (w : world) :
  subprocess_run env ["gdalinfo"; "-json"; path] = Completed out ->
  json_loads env out = inr info ->
  parse_geotiff_info env out = Raise e ->
  generate_tiles env path outdir folder w
  = (Raise e, mkWorld (stdout w ++ ["Processing " ++ folder ++ "..."]) (dirs w) (files w)).
Proof.
  intros Hrun Hjson Hparse.
  unfold generate_tiles. rewrite bind_print. unfold bind.
  rewrite (get_geotiff_info_parsed path out info _ Hrun Hjson). now rewrite Hparse.
Qed.


(** X7: when the output of [gdalinfo] is JSON, [get_geotiff_info] returns
    bounds exactly when the document has the keys [cornerCoordinates] (with
    [lowerLeft] and [upperRight] of two numbers at least), [size] and
    [geoTransform] (of two numbers at least); west and south are then the
    first two numbers of [lowerLeft], east and north those of [upperRight],
    and the pixel size is the second number of [geoTransform]. *)
Theorem get_geotiff_info_some (path out : string) (info : gdalinfo_json)
  (b : bounds) (sz : list Z) (pixel_size : R) (w : world) :
  subprocess_run env ["gdalinfo"; "-json"; path] = Completed out ->
  json_loads env out = inr info ->
  (fst (get_geotiff_info env path w) = Ok (Some (b, sz, pixel_size))
   <-> exists corners lower_left upper_right geo_transform,
         cornerCoordinates info = Some corners
         /\ lowerLeft corners = Some lower_left
         /\ upperRight corners = Some upper_right
         /\ nth_error lower_left 0 = Some (west b)
         /\ nth_error lower_left 1 = Some (south b)
         /\ nth_error upper_right 0 = Some (east b)
         /\ nth_error upper_right 1 = Some (north b)
         /\ size info = Some sz
         /\ geoTransform info = Some geo_transform
         /\ nth_error geo_transform 1 = Some pixel_size).
Proof.
  intros Hrun Hjson.
  rewrite (get_geotiff_info_parsed path out info w Hrun Hjson). cbn [fst].
  unfold parse_geotiff_info, getitem, list_getitem. rewrite Hjson. cbn [rbind].
  split.
  - destruct (cornerCoordinates info) as [corners |]; cbn [rbind]; [| discriminate].
    destruct (lowerLeft corners) as [ll |] eqn:Hll; cbn [rbind]; [| discriminate].
    destruct (upperRight corners) as [ur |] eqn:Hur; cbn [rbind]; [| discriminate].
    destruct (nth_error ll 0) as [x0 |] eqn:H0; cbn [rbind]; [| discriminate].
    destruct (nth_error ll 1) as [x1 |] eqn:H1; cbn [rbind]; [| discriminate].
    destruct (nth_error ur 0) as [x2 |] eqn:H2; cbn [rbind]; [| discriminate].
    destruct (nth_error ur 1) as [x3 |] eqn:H3; cbn [rbind]; [| discriminate].
    destruct (size info) as [sz' |]; cbn [rbind]; [| discriminate].
    destruct (geoTransform info) as [g |]; cbn [rbind]; [| discriminate].
    destruct (nth_error g 1) as [px |] eqn:Hpx; cbn [rbind]; [| discriminate].
    intros H. injection H as Hb Hsz Hp. subst b sz' px.
    exists corners, ll, ur, g. cbn [west south east north].
    repeat split; assumption.
  - intros (corners & ll & ur & g & -> & Hll & Hur & H0 & H1 & H2 & H3 & -> & -> & Hpx).
    cbn [rbind]. rewrite Hll, Hur. cbn [rbind]. rewrite H0, H1, H2, H3, Hpx.
    cbn [rbind]. destruct b. reflexivity.
Qed.

End ExtractorMore.


Lemma get_geotiff_info_some_witness :
  fst (get_geotiff_info env_tiles_fail "/srv/map/orthos/siteA.tif" empty_world)
  = Ok (Some (mkBounds (-1) 0 1 2, [1024; 1024], (1 / 10)%R)).
Proof.
  apply (get_geotiff_info_some env_tiles_fail "/srv/map/orthos/siteA.tif" "{...}"
           sample_info (mkBounds (-1) 0 1 2) [1024; 1024] (1 / 10)%R empty_world);
    try reflexivity.
  exists (mkCorners (Some [(-1)%R; 0%R]) (Some [1%R; 2%R])),
    [(-1)%R; 0%R], [1%R; 2%R], [(-1)%R; (1 / 10)%R; 0%R; 2%R; 0%R; (- (1 / 10))%R].
  repeat split; reflexivity.
Defined.

(** ** More on the tile pyramid invoker *)

Section KeepsDirs.

Lemma keeps_dirs_ret {A} (a : A) : keeps_dirs (ret a).
Proof. intros w. reflexivity. Qed.

Lemma keeps_dirs_raise {A} (e : exn) : keeps_dirs (@raise A e).
Proof. intros w. reflexivity. Qed.

Lemma keeps_dirs_lift {A} (r : result A) : keeps_dirs (lift r).
Proof. intros w. reflexivity. Qed.

Lemma keeps_dirs_print (line : string) : keeps_dirs (print line).
Proof. intros w. reflexivity. Qed.

Lemma keeps_dirs_bind {A B} (m : M A) (k : A -> M B) :
  keeps_dirs m -> (forall a, keeps_dirs (k a)) -> keeps_dirs (bind m k).
Proof.
  intros Hm Hk w. unfold bind. specialize (Hm w).
  destruct (m w) as [[a | e] w1]; cbn in *; [| exact Hm].
  now rewrite Hk.
Qed.

Lemma keeps_dirs_try_except {A} (body : M A) (handler : exn -> option (M A)) :
  keeps_dirs body ->
  (forall e h, handler e = Some h -> keeps_dirs h) ->
  keeps_dirs (try_except body handler).
Proof.
  intros Hm Hh w. unfold try_except. specialize (Hm w).
  destruct (body w) as [[a | e] w1]; cbn in *; [exact Hm |].
  destruct (handler e) as [h |] eqn:He; [| exact Hm].
  now rewrite (Hh e h He).
Qed.

Variable env : Env.

Lemma keeps_dirs_run_checked (cmd : list string) : keeps_dirs (run_checked env cmd).
Proof. intros w. unfold run_checked. destruct (subprocess_run env cmd); reflexivity. Qed.

Lemma keeps_dirs_write_file (path content : string) :
  keeps_dirs (write_file env path content).
Proof. intros w. unfold write_file. destruct (open_ok env path); reflexivity. Qed.

End KeepsDirs.

Create HintDb keeps_dirs.
#[local] Hint Resolve keeps_dirs_ret keeps_dirs_raise keeps_dirs_lift keeps_dirs_print
  keeps_dirs_run_checked keeps_dirs_write_file : keeps_dirs.

Ltac keeps_dirs_step :=
  match goal with
  | |- keeps_dirs (bind _ _) => apply keeps_dirs_bind; [| intros ?]
  | |- keeps_dirs (try_except _ _) =>
      apply keeps_dirs_try_except;
      [| let e := fresh "e" in let h := fresh "h" in let H := fresh "H" in
         intros e h H; destruct e; inversion H; subst; clear H]
  | |- keeps_dirs (match ?x with _ => _ end) => destruct x
  | |- keeps_dirs (let '(_, _) := ?x in _) => destruct x
  | |- keeps_dirs _ => solve [auto with keeps_dirs]
  end.

(** Closes the cases of a run whose result and world are known. *)
Ltac effects_done :=
  cbn; repeat split; auto; try (intros ? [=]); try discriminate.

Section InvokerMore.

Variable env : Env.

Lemma keeps_dirs_get_geotiff_info (path : string) :
  keeps_dirs (get_geotiff_info env path).
Proof. unfold get_geotiff_info. repeat keeps_dirs_step. Qed.

(** [generate_tiles] after the metadata were read. *)
Lemma generate_tiles_after_info (path out folder o : string)
  (b : bounds) (size : list Z) (pixel_size : R) (w : world) :
  subprocess_run env ["gdalinfo"; "-json"; path] = Completed o ->
  parse_geotiff_info env o = Ok (b, size, pixel_size) ->
  generate_tiles env path out folder w
  = match list_getitem size 0 with
    | Raise e =>
        (Raise e, mkWorld (stdout w ++ ["Processing " ++ folder ++ "..."]) (dirs w) (files w))
    | Ok image_width =>
        match calculate_zoom_levels pixel_size image_width with
        | Raise e =>
            (Raise e,
             mkWorld (stdout w ++ ["Processing " ++ folder ++ "..."]) (dirs w) (files w))
        | Ok (lo, hi) =>
            let lines :=
              ["Processing " ++ folder ++ "...";
               "  Bounds: " ++ bounds_repr env b;
               "  Suggested zoom levels: " ++ str_of_Z lo ++ "-" ++ str_of_Z hi] in
            let tile_output_dir := os_path_join out folder in
            let cmd := gdal2tiles_cmd lo hi path tile_output_dir in
            if makedirs_ok env tile_output_dir then
              match subprocess_run env cmd with
              | Completed _ =>
                  (Ok (Some (b, lo, hi)),
                   mkWorld (stdout w ++ lines
                              ++ ["  Running: " ++ String.concat " " cmd;
                                  "  ✓ Tiles generated successfully for " ++ folder])
                           (tile_output_dir :: dirs w) (files w))
              | Failed msg =>
                  (Ok None,
                   mkWorld (stdout w ++ lines
                              ++ ["  Running: " ++ String.concat " " cmd;
                                  "  ✗ Error generating tiles for " ++ folder ++ ": " ++ msg])
                           (tile_output_dir :: dirs w) (files w))
              | NotFound =>
                  (Raise FileNotFoundError,
                   mkWorld (stdout w ++ lines ++ ["  Running: " ++ String.concat " " cmd])
                           (tile_output_dir :: dirs w) (files w))
              end
            else (Raise OSError, mkWorld (stdout w ++ lines) (dirs w) (files w))
        end
    end.
Proof.
  intros Hrun Hparse. unfold generate_tiles.
  rewrite bind_print. unfold bind at 1.
  rewrite (get_geotiff_info_ok env path o _ _ Hrun Hparse).
  unfold bind, lift, print, ret, raise, os_makedirs, try_except, run_checked.
  destruct (list_getitem size 0) as [iw | e]; [| reflexivity].
  destruct (calculate_zoom_levels pixel_size iw) as [[lo hi] | e]; [| reflexivity].
  cbn [stdout dirs files].
  destruct (makedirs_ok env (os_path_join out folder)).
  - cbn [stdout dirs files].
    destruct (subprocess_run env (gdal2tiles_cmd lo hi path (os_path_join out folder)));
      unfold ret, raise; cbn [stdout dirs files]; now rewrite <- !app_assoc.
  - now rewrite <- !app_assoc.
Qed.

(** What [generate_tiles] does to the files and the directories. *)
Lemma generate_tiles_world (path out folder : string) (w : world) :
  let w' := snd (generate_tiles env path out folder w) in
  files w' = files w
  /\ (dirs w' = dirs w \/ dirs w' = os_path_join out folder :: dirs w)
  /\ (forall r, fst (generate_tiles env path out folder w) = Ok (Some r) ->
                dirs w' = os_path_join out folder :: dirs w)
  /\ (extraction_fails env path = true -> dirs w' = dirs w).
Proof.
  cbn zeta. split; [apply keeps_files_generate_tiles |].
  destruct (extraction_fails env path) eqn:Hfail.
  - destruct (generate_tiles_extraction_fails env path out folder w Hfail) as (line & ->).
    cbn. repeat split; auto. intros r [=].
  - unfold extraction_fails in Hfail.
    destruct (subprocess_run env ["gdalinfo"; "-json"; path]) as [o | msg |] eqn:Hrun;
      try discriminate.
    + destruct (json_loads env o) as [msg | info] eqn:Hjson; [discriminate |].
      destruct (parse_geotiff_info env o) as [[[b size] px] | e] eqn:Hparse.
      * rewrite (generate_tiles_after_info path out folder o b size px w Hrun Hparse).
        destruct (list_getitem size 0) as [iw | e]; [| effects_done].
        destruct (calculate_zoom_levels px iw) as [[lo hi] | e]; [| effects_done].
        cbn zeta. destruct (makedirs_ok env (os_path_join out folder)); [| effects_done].
        destruct (subprocess_run env (gdal2tiles_cmd lo hi path (os_path_join out folder)));
          effects_done.
      * rewrite (generate_tiles_parse_raises env path o out folder info e w Hrun Hjson Hparse).
        effects_done.
    + unfold generate_tiles. rewrite bind_print. unfold bind.
      unfold get_geotiff_info, try_except, bind, run_checked. rewrite Hrun.
      effects_done.
Qed.


End InvokerMore.

Section InvokerErrors.

Variable env : Env.

(** The run behind bounds that [generate_tiles] returns. *)
Lemma generate_tiles_some (path out folder : string) (b : bounds) (lo hi : Z)
  (w w' : world) :
  generate_tiles env path out folder w = (Ok (Some (b, lo, hi)), w') ->
  exists o size pixel_size image_width t,
    subprocess_run env ["gdalinfo"; "-json"; path] = Completed o
    /\ parse_geotiff_info env o = Ok (b, size, pixel_size)
    /\ list_getitem size 0 = Ok image_width
    /\ calculate_zoom_levels pixel_size image_width = Ok (lo, hi)
    /\ makedirs_ok env (os_path_join out folder) = true
    /\ subprocess_run env (gdal2tiles_cmd lo hi path (os_path_join out folder)) = Completed t
    /\ dirs w' = os_path_join out folder :: dirs w
    /\ files w' = files w.
Proof.
  intros H.
  destruct (extraction_fails env path) eqn:Hfail.
  { destruct (generate_tiles_extraction_fails env path out folder w Hfail) as (line & Hgen).
    rewrite Hgen in H. discriminate. }
  unfold extraction_fails in Hfail.
  destruct (subprocess_run env ["gdalinfo"; "-json"; path]) as [o | msg |] eqn:Hrun;
    try discriminate.
  - destruct (json_loads env o) as [msg | info] eqn:Hjson; [discriminate |].
    destruct (parse_geotiff_info env o) as [[[b' size] px] | e] eqn:Hparse.
    + rewrite (generate_tiles_after_info env path out folder o b' size px w Hrun Hparse) in H.
      destruct (list_getitem size 0) as [iw | e] eqn:Hsize; [| discriminate].
      destruct (calculate_zoom_levels px iw) as [[lo' hi'] | e] eqn:Hzoom; [| discriminate].
      cbn zeta in H.
      destruct (makedirs_ok env (os_path_join out folder)) eqn:Hmk; [| discriminate].
      destruct (subprocess_run env (gdal2tiles_cmd lo' hi' path (os_path_join out folder)))
        as [t | msg |] eqn:Htiles; try discriminate.
      injection H as -> -> -> <-.
      exists o, size, px, iw, t. repeat split; assumption || reflexivity.
    + rewrite (generate_tiles_parse_raises env path o out folder info e w Hrun Hjson Hparse)
        in H.
      discriminate.
  - unfold generate_tiles in H. rewrite bind_print in H. unfold bind in H.
    unfold get_geotiff_info, try_except, bind, run_checked in H. rewrite Hrun in H.
    discriminate.
Qed.

(** X9: when [generate_tiles] returns bounds, [gdalinfo] exited with status
    0, the bounds are those of its document, the zoom levels are those
    computed from its pixel size, the directory of the layer was created and
    [gdal2tiles.py], run with these zoom levels, exited with status 0. *)
Theorem generate_tiles_some_inv (path out folder : string) (b : bounds) (lo hi : Z)
  (w w' : world) :
  generate_tiles env path out folder w = (Ok (Some (b, lo, hi)), w') ->
  exists o size pixel_size image_width t,
    subprocess_run env ["gdalinfo"; "-json"; path] = Completed o
    /\ parse_geotiff_info env o = Ok (b, size, pixel_size)
    /\ list_getitem size 0 = Ok image_width
    /\ calculate_zoom_levels pixel_size image_width = Ok (lo, hi)
    /\ makedirs_ok env (os_path_join out folder) = true
    /\ subprocess_run env (gdal2tiles_cmd lo hi path (os_path_join out folder)) = Completed t
    /\ dirs w' = os_path_join out folder :: dirs w
    /\ files w' = files w.
Proof. exact (generate_tiles_some path out folder b lo hi w w'). Qed.

(** X10: a pixel width of 0 makes the zoom computation raise
    [ZeroDivisionError] before any directory is created; nothing catches it,
    so the loop stops at that file and the files after it are not
    processed. *)
Theorem zero_pixel_size_aborts (name o : string) (b : bounds) (size : list Z)
  (image_width : Z) (post : list string) (cfgs : dict ortho_config) (w : world) :
  subprocess_run env ["gdalinfo"; "-json"; path_div (geotiff_dir env) name] = Completed o ->
  parse_geotiff_info env o = Ok (b, size, 0%R) ->
  list_getitem size 0 = Ok image_width ->
  let w' := mkWorld (stdout w ++ ["Processing " ++ stem name ++ "..."]) (dirs w) (files w) in
  generate_tiles env (path_div (geotiff_dir env) name) (tiles_dir env) (stem name) w
  = (Raise ZeroDivisionError, w')
  /\ process_all env (name :: post) cfgs w = (Raise ZeroDivisionError, w').
Proof.
  intros Hrun Hparse Hsize w'.
  assert (generate_tiles env (path_div (geotiff_dir env) name) (tiles_dir env) (stem name) w
          = (Raise ZeroDivisionError, w')) as Hgen.
  { rewrite (generate_tiles_after_info env _ _ _ o b size 0%R w Hrun Hparse).
    rewrite Hsize. now rewrite calculate_zoom_levels_eq, optimal_zoom_zero. }
  split; [exact Hgen |].
  cbn [process_all]. unfold bind. rewrite process_file_spec. now rewrite Hgen.
Qed.

(** X11: an exception that leaves the processing of one file ends the loop:
    the result is the same whatever files come after it, and the result set
    built so far is lost. *)
Theorem process_all_aborts (pre post : list string) (name : string)
  (cfgs d1 : dict ortho_config) (w w1 w2 : world) (e : exn) :
  process_all env pre cfgs w = (Ok d1, w1) ->
  process_file env d1 name w1 = (Raise e, w2) ->
  process_all env (pre ++ name :: post) cfgs w = (Raise e, w2).
Proof.
  intros Hpre Hfile. rewrite process_all_app, Hpre.
  cbn [process_all]. unfold bind. now rewrite Hfile.
Qed.

End InvokerErrors.

Lemma generate_tiles_some_inv_witness :
  exists o size pixel_size image_width,
    subprocess_run (env_one_raster (fun _ => "") (fun _ => ""))
      ["gdalinfo"; "-json"; "/srv/map/orthos/siteA.tif"] = Completed o
    /\ parse_geotiff_info (env_one_raster (fun _ => "") (fun _ => "")) o
       = Ok (mkBounds (-1) 0 1 2, size, pixel_size)
    /\ list_getitem size 0 = Ok image_width
    /\ calculate_zoom_levels pixel_size image_width = Ok (12, 22).
Proof.
  destruct (generate_tiles_some_inv (env_one_raster (fun _ => "") (fun _ => ""))
              "/srv/map/orthos/siteA.tif" "/srv/map/tiles" "siteA"
              (mkBounds (-1) 0 1 2) 12 22 empty_world
              (snd (generate_tiles (env_one_raster (fun _ => "") (fun _ => ""))
                      "/srv/map/orthos/siteA.tif" "/srv/map/tiles" "siteA" empty_world)))
    as (o & size & px & iw & t & H1 & H2 & H3 & H4 & _).
  - rewrite (generate_tiles_success (env_one_raster (fun _ => "") (fun _ => ""))
               "/srv/map/orthos/siteA.tif" "/srv/map/tiles" "siteA" "{...}" ""
               (mkBounds (-1) 0 1 2) [1024; 1024] (1 / 10)%R 1024 12 22 empty_world);
      try reflexivity.
    apply calculate_zoom_levels_10cm.
  - exists o, size, px, iw. repeat split; assumption.
Defined.

Lemma zero_pixel_size_aborts_witness :
  process_all env_zero_pixel ["flat.tif"; "siteA.tif"] [] empty_world
  = (Raise ZeroDivisionError, mkWorld ["Processing flat..."] [] []).
Proof.
  apply (zero_pixel_size_aborts env_zero_pixel "flat.tif" "{...}"
           (mkBounds (-1) 0 1 2) [1024; 1024] 1024 ["siteA.tif"] [] empty_world);
    reflexivity.
Defined.

Lemma process_all_aborts_witness :
  process_all env_no_transform ([] ++ "scan.tif" :: ["later.tif"]) [] empty_world
  = (Raise (KeyError "geoTransform"), mkWorld ["Processing scan..."] [] []).
Proof.
  apply (process_all_aborts env_no_transform [] ["later.tif"] "scan.tif" [] []
           empty_world empty_world); reflexivity.
Defined.

(** ** More on the viewer config synthesizer *)

Section ViewFacts.

Local Open Scope R_scope.

Lemma float_min_In (x : R) (xs : list R) : In (float_min x xs) (x :: xs).
Proof. apply float_min_spec. Qed.

Lemma float_min_le (x : R) (xs : list R) (y : R) : In y (x :: xs) -> float_min x xs <= y.
Proof. apply float_min_spec. Qed.

Lemma float_max_In (x : R) (xs : list R) : In (float_max x xs) (x :: xs).
Proof. apply float_max_spec. Qed.

Lemma float_max_ge (x : R) (xs : list R) (y : R) : In y (x :: xs) -> y <= float_max x xs.
Proof. apply float_max_spec. Qed.

(** The minimum over a part of a list is not below the minimum over the
    list, and the maximum not above. *)
Lemma float_min_incl (x y : R) (xs ys : list R) :
  incl (x :: xs) (y :: ys) -> float_min y ys <= float_min x xs.
Proof. intros Hincl. apply float_min_le, Hincl, float_min_In. Qed.

Lemma float_max_incl (x y : R) (xs ys : list R) :
  incl (x :: xs) (y :: ys) -> float_max x xs <= float_max y ys.
Proof. intros Hincl. apply float_max_ge, Hincl, float_max_In. Qed.

Lemma incl_map_cons {A B} (f : A -> B) (x y : A) (xs ys : list A) :
  incl (x :: xs) (y :: ys) -> incl (f x :: map f xs) (f y :: map f ys).
Proof. intros H. exact (incl_map f H). Qed.

Lemma max_range_incl (b b' : bounds) (bs bs' : list bounds) :
  incl (b :: bs) (b' :: bs') -> max_range b bs <= max_range b' bs'.
Proof.
  intros H. unfold max_range, max_north, min_south, max_east, min_west. cbn zeta.
  pose proof (float_min_incl _ _ _ _ (incl_map_cons west _ _ _ _ H)).
  pose proof (float_min_incl _ _ _ _ (incl_map_cons south _ _ _ _ H)).
  pose proof (float_max_incl _ _ _ _ (incl_map_cons east _ _ _ _ H)).
  pose proof (float_max_incl _ _ _ _ (incl_map_cons north _ _ _ _ H)).
  apply Rmax_case; [eapply Rle_trans; [| apply Rmax_l] | eapply Rle_trans; [| apply Rmax_r]];
    lra.
Qed.

(** The zoom computed from a larger extent is not larger. *)
Lemma zoom_of_range_antitone (m1 m2 : R) :
  0 < m1 -> m1 <= m2 ->
  (Z.max 1 (py_int (10 - log2 (m2 * 10))) <= Z.max 1 (py_int (10 - log2 (m1 * 10))))%Z.
Proof.
  intros H1 H12.
  assert (log2 (m1 * 10) <= log2 (m2 * 10)) as Hlog by (apply log2_le; lra).
  assert (py_int (10 - log2 (m2 * 10)) <= py_int (10 - log2 (m1 * 10)))%Z
    by (apply py_int_le; lra).
  lia.
Qed.

(** X12: the overall bounds are bounds of some layer and enclose every
    layer: the west and south edges are the least ones, the east and north
    edges the greatest ones. *)
Theorem overall_bounds_enclose (b : bounds) (bs : list bounds) :
  In (min_west b bs) (map west (b :: bs))
  /\ In (max_east b bs) (map east (b :: bs))
  /\ In (min_south b bs) (map south (b :: bs))
  /\ In (max_north b bs) (map north (b :: bs))
  /\ Forall (fun l => min_west b bs <= west l /\ east l <= max_east b bs
                      /\ min_south b bs <= south l /\ north l <= max_north b bs)
            (b :: bs).
Proof.
  unfold min_west, max_east, min_south, max_north.
  repeat split; try apply float_min_In; try apply float_max_In.
  apply Forall_forall. intros l Hl. repeat split.
  - apply float_min_le. exact (in_map west _ _ Hl).
  - apply float_max_ge. exact (in_map east _ _ Hl).
  - apply float_min_le. exact (in_map south _ _ Hl).
  - apply float_max_ge. exact (in_map north _ _ Hl).
Qed.

(** X13: the extent from which the initial zoom is computed is at least
    the larger side of every layer, and the center of the view lies within
    the overall bounds as soon as one layer has its south edge below its
    north edge and its west edge left of its east edge. *)
Theorem view_covers_layer (b : bounds) (bs : list bounds) (l : bounds) :
  In l (b :: bs) ->
  Rmax (north l - south l) (east l - west l) <= max_range b bs
  /\ (south l <= north l -> min_south b bs <= center_lat b bs <= max_north b bs)
  /\ (west l <= east l -> min_west b bs <= center_lng b bs <= max_east b bs).
Proof.
  intros Hl.
  pose proof (float_min_le (west b) (map west bs) _ (in_map west _ _ Hl)) as Hw.
  pose proof (float_max_ge (east b) (map east bs) _ (in_map east _ _ Hl)) as He.
  pose proof (float_min_le (south b) (map south bs) _ (in_map south _ _ Hl)) as Hs.
  pose proof (float_max_ge (north b) (map north bs) _ (in_map north _ _ Hl)) as Hn.
  unfold max_range, center_lat, center_lng, max_north, min_south, max_east, min_west.
  cbn zeta. split; [| split].
  - apply Rmax_case; [eapply Rle_trans; [| apply Rmax_l] | eapply Rle_trans; [| apply Rmax_r]];
      lra.
  - intros Hsn. lra.
  - intros Hwe. lra.
Qed.

(** X14: the view depends on the set of the layers' bounds only: their
    order and their repetitions change neither the overall bounds nor the
    center, the extent and the initial zoom. *)
Theorem view_of_same_layers (b b' : bounds) (bs bs' : list bounds) :
  incl (b :: bs) (b' :: bs') -> incl (b' :: bs') (b :: bs) ->
  min_west b bs = min_west b' bs' /\ max_east b bs = max_east b' bs'
  /\ min_south b bs = min_south b' bs' /\ max_north b bs = max_north b' bs'
  /\ center_lat b bs = center_lat b' bs' /\ center_lng b bs = center_lng b' bs'
  /\ max_range b bs = max_range b' bs'
  /\ initial_zoom b bs = initial_zoom b' bs'.
Proof.
  intros H1 H2.
  assert (min_west b bs = min_west b' bs') as Hw
    by (apply Rle_antisym; apply float_min_incl, incl_map_cons; assumption).
  assert (max_east b bs = max_east b' bs') as He
    by (apply Rle_antisym; apply float_max_incl, incl_map_cons; assumption).
  assert (min_south b bs = min_south b' bs') as Hs
    by (apply Rle_antisym; apply float_min_incl, incl_map_cons; assumption).
  assert (max_north b bs = max_north b' bs') as Hn
    by (apply Rle_antisym; apply float_max_incl, incl_map_cons; assumption).
  unfold initial_zoom, max_range, center_lat, center_lng. rewrite Hw, He, Hs, Hn.
  repeat split; reflexivity.
Qed.


(** X16: more layers never zoom in: when the layers of one result set are
    among those of another one, the initial zoom of the larger set is at
    most that of the smaller one, and at least 1. *)
Theorem initial_zoom_more_layers (b b' : bounds) (bs bs' : list bounds) :
  incl (b :: bs) (b' :: bs') ->
  0 < max_range b bs ->
  exists z z', initial_zoom b bs = Ok z /\ initial_zoom b' bs' = Ok z' /\ (1 <= z' <= z)%Z.
Proof.
  intros Hincl Hpos. pose proof (max_range_incl b b' bs bs' Hincl) as Hle.
  rewrite !initial_zoom_positive by lra.
  eexists _, _. split; [reflexivity |]. split; [reflexivity |].
  pose proof (zoom_of_range_antitone _ _ Hpos Hle). lia.
Qed.

(** X17: when some layer has bounds, the synthesizer raises [ValueError]
    exactly when the extent is not positive, as for one layer reduced to a
    point, and it does so before it writes or prints anything. *)
Theorem update_map_config_degenerate (env : Env) (cfgs : dict ortho_config) (out : string)
  (b : bounds) (bs : list bounds) (w : world) :
  all_bounds cfgs = b :: bs ->
  (fst (update_map_config env cfgs out w) = Raise ValueError <-> max_range b bs <= 0)
  /\ (max_range b bs <= 0 -> update_map_config env cfgs out w = (Raise ValueError, w)).
Proof.
  intros Hb.
  assert (max_range b bs <= 0 -> update_map_config env cfgs out w = (Raise ValueError, w))
    as Hraise.
  { intros Hrange. apply (update_map_config_raises env cfgs out b bs ValueError w Hb).
    now apply initial_zoom_degenerate. }
  split; [| exact Hraise]. split.
  - intros Hfst. destruct (Rle_dec (max_range b bs) 0) as [Hle | Hgt]; [exact Hle | exfalso].
    assert (0 < max_range b bs) as Hpos by lra.
    pose proof (initial_zoom_positive b bs Hpos) as Hz.
    destruct (open_ok env (js_path out)) eqn:Hopen.
    + rewrite (update_map_config_bounds env cfgs out b bs _ w Hb Hz Hopen) in Hfst.
      discriminate.
    + rewrite (update_map_config_cannot_open env cfgs out b bs _ w Hb Hz Hopen) in Hfst.
      discriminate.
  - intros Hrange. now rewrite Hraise.
Qed.

End ViewFacts.

Lemma view_covers_layer_witness :
  (Rmax (north bounds_east - south bounds_east) (east bounds_east - west bounds_east)
   <= max_range bounds_north [bounds_east; bounds_south])%R.
Proof.
  exact (proj1 (view_covers_layer bounds_north [bounds_east; bounds_south] bounds_east
                  (or_intror (or_introl eq_refl)))).
Defined.

Lemma view_of_same_layers_witness :
  initial_zoom bounds_north [bounds_east] = initial_zoom bounds_east [bounds_north; bounds_east].
Proof.
  apply (view_of_same_layers bounds_north bounds_east [bounds_east] [bounds_north; bounds_east]).
  - intros l [<- | [<- | []]]; cbn; auto.
  - intros l [<- | [<- | [<- | []]]]; cbn; auto.
Defined.


Lemma initial_zoom_more_layers_witness :
  exists z z',
    initial_zoom bounds_north [] = Ok z
    /\ initial_zoom bounds_north [bounds_east] = Ok z'
    /\ 1 <= z' <= z.
Proof.
  apply (initial_zoom_more_layers bounds_north bounds_north [] [bounds_east]).
  - intros l [<- | []]. now left.
  - unfold max_range, max_north, min_south, max_east, min_west, float_min, float_max,
      bounds_north.
    cbn [map fold_left west south east north]. eval_minmax. lra.
Defined.

Lemma update_map_config_degenerate_witness :
  update_map_config env_info_fails
    [("point", mkConfig (Some (mkBounds 1 1 1 1)) (Some 5) (Some 10) "point.tif")]
    "/srv/map" empty_world
  = (Raise ValueError, empty_world).
Proof.
  apply (update_map_config_degenerate env_info_fails
           [("point", mkConfig (Some (mkBounds 1 1 1 1)) (Some 5) (Some 10) "point.tif")]
           "/srv/map" (mkBounds 1 1 1 1) [] empty_world eq_refl).
  unfold max_range, max_north, min_south, max_east, min_west, float_min, float_max.
  cbn [map fold_left west south east north]. apply Rmax_case; lra.
Defined.

Section ZoomRangeFacts.

Lemma int_min_spec (xs : list Z) :
  forall x, In (int_min x xs) (x :: xs) /\ forall y, In y (x :: xs) -> int_min x xs <= y.
Proof.
  unfold int_min. induction xs as [| a xs IH]; intros x; cbn [fold_left].
  - split; [now left |]. intros y [<- | []]. lia.
  - destruct (IH (Z.min x a)) as [Hin Hle]. split.
    + destruct Hin as [Heq | Hin]; [| right; now right].
      rewrite <- Heq. destruct (Z.min_spec x a) as [[_ ->] | [_ ->]]; [now left | right; now left].
    + intros y Hy.
      assert (fold_left Z.min xs (Z.min x a) <= Z.min x a) as Hm by (apply Hle; now left).
      destruct Hy as [<- | [<- | Hy]]; [lia | lia |]. apply Hle. now right.
Qed.

Lemma int_max_spec (xs : list Z) :
  forall x, In (int_max x xs) (x :: xs) /\ forall y, In y (x :: xs) -> y <= int_max x xs.
Proof.
  unfold int_max. induction xs as [| a xs IH]; intros x; cbn [fold_left].
  - split; [now left |]. intros y [<- | []]. lia.
  - destruct (IH (Z.max x a)) as [Hin Hle]. split.
    + destruct Hin as [Heq | Hin]; [| right; now right].
      rewrite <- Heq. destruct (Z.max_spec x a) as [[_ ->] | [_ ->]]; [right; now left | now left].
    + intros y Hy.
      assert (Z.max x a <= fold_left Z.max xs (Z.max x a)) as Hm by (apply Hle; now left).
      destruct Hy as [<- | [<- | Hy]]; [lia | lia |]. apply Hle. now right.
Qed.

(** The zooms that count are those that are neither [None] nor 0. *)
Lemma present_zooms_In (zs : list (option Z)) (z : Z) :
  In z (present_zooms zs) <-> z <> 0 /\ In (Some z) zs.
Proof.
  unfold present_zooms. rewrite in_flat_map. split.
  - intros (o & Ho & Hin). destruct o as [z' |]; [| contradiction].
    destruct (Z.eqb_spec z' 0); [contradiction |].
    destruct Hin as [<- | []]. now split.
  - intros (Hnz & Hin). exists (Some z). split; [exact Hin |].
    destruct (Z.eqb_spec z 0); [contradiction | now left].
Qed.

Lemma all_min_zooms_In (cfgs : dict ortho_config) (z : Z) :
  In z (all_min_zooms cfgs)
  <-> z <> 0 /\ exists c, In c (dict_values cfgs) /\ cfg_min_zoom c = Some z.
Proof.
  unfold all_min_zooms. rewrite present_zooms_In, in_map_iff.
  split; intros (Hnz & c & H1 & H2); (split; [exact Hnz |]); exists c; now split.
Qed.

Lemma all_max_zooms_In (cfgs : dict ortho_config) (z : Z) :
  In z (all_max_zooms cfgs)
  <-> z <> 0 /\ exists c, In c (dict_values cfgs) /\ cfg_max_zoom c = Some z.
Proof.
  unfold all_max_zooms. rewrite present_zooms_In, in_map_iff.
  split; intros (Hnz & c & H1 & H2); (split; [exact Hnz |]); exists c; now split.
Qed.

Lemma overall_min_zoom_cases (cfgs : dict ortho_config) :
  (all_min_zooms cfgs = [] /\ overall_min_zoom cfgs = 5)
  \/ (In (overall_min_zoom cfgs) (all_min_zooms cfgs)
      /\ forall z, In z (all_min_zooms cfgs) -> overall_min_zoom cfgs <= z).
Proof.
  unfold overall_min_zoom. destruct (all_min_zooms cfgs) as [| z zs]; [now left | right].
  apply int_min_spec.
Qed.

Lemma overall_max_zoom_cases (cfgs : dict ortho_config) :
  (all_max_zooms cfgs = [] /\ overall_max_zoom cfgs = 18)
  \/ (In (overall_max_zoom cfgs) (all_max_zooms cfgs)
      /\ forall z, In z (all_max_zooms cfgs) -> z <= overall_max_zoom cfgs).
Proof.
  unfold overall_max_zoom. destruct (all_max_zooms cfgs) as [| z zs]; [now left | right].
  apply int_max_spec.
Qed.

(** X18: the minimum zoom of the viewer is the least minimum zoom of the
    entries, where a zoom of 0 counts as missing like [None], and 5 when
    no entry has one; the maximum zoom is the greatest maximum zoom of the
    entries under the same reading, and 18 when no entry has one. *)
Theorem overall_zoom_range_spec (cfgs : dict ortho_config) :
  (((forall z c, In c (dict_values cfgs) -> cfg_min_zoom c = Some z -> z = 0)
    /\ overall_min_zoom cfgs = 5)
   \/ (overall_min_zoom cfgs <> 0
       /\ (exists c, In c (dict_values cfgs) /\ cfg_min_zoom c = Some (overall_min_zoom cfgs))
       /\ forall z c, In c (dict_values cfgs) -> cfg_min_zoom c = Some z -> z <> 0 ->
                      overall_min_zoom cfgs <= z))
  /\ (((forall z c, In c (dict_values cfgs) -> cfg_max_zoom c = Some z -> z = 0)
       /\ overall_max_zoom cfgs = 18)
      \/ (overall_max_zoom cfgs <> 0
          /\ (exists c, In c (dict_values cfgs)
                        /\ cfg_max_zoom c = Some (overall_max_zoom cfgs))
          /\ forall z c, In c (dict_values cfgs) -> cfg_max_zoom c = Some z -> z <> 0 ->
                         z <= overall_max_zoom cfgs)).
Proof.
  split.
  - destruct (overall_min_zoom_cases cfgs) as [[Hnil H5] | [Hin Hle]]; [left | right].
    + split; [| exact H5]. intros z c Hc Hz.
      destruct (Z.eq_dec z 0) as [H0 | H0]; [exact H0 | exfalso].
      assert (In z (all_min_zooms cfgs)) as Hz' by (apply all_min_zooms_In; eauto).
      rewrite Hnil in Hz'. contradiction.
    + apply all_min_zooms_In in Hin. destruct Hin as (Hnz & Hc). split; [exact Hnz |].
      split; [exact Hc |]. intros z c Hin Hz H0. apply Hle, all_min_zooms_In. eauto.
  - destruct (overall_max_zoom_cases cfgs) as [[Hnil H18] | [Hin Hle]]; [left | right].
    + split; [| exact H18]. intros z c Hc Hz.
      destruct (Z.eq_dec z 0) as [H0 | H0]; [exact H0 | exfalso].
      assert (In z (all_max_zooms cfgs)) as Hz' by (apply all_max_zooms_In; eauto).
      rewrite Hnil in Hz'. contradiction.
    + apply all_max_zooms_In in Hin. destruct Hin as (Hnz & Hc). split; [exact Hnz |].
      split; [exact Hc |]. intros z c Hin Hz H0. apply Hle, all_max_zooms_In. eauto.
Qed.

(** X19: when every entry has either no zoom levels or a range
    [1 <= min_zoom <= max_zoom], the zoom range of the viewer is a range
    too: its minimum is at least 1 and at most its maximum. *)
Theorem overall_zoom_range_ordered (cfgs : dict ortho_config) :
  Forall (fun c => match cfg_min_zoom c, cfg_max_zoom c with
                   | Some lo, Some hi => 1 <= lo <= hi
                   | None, None => True
                   | _, _ => False
                   end) (dict_values cfgs) ->
  1 <= overall_min_zoom cfgs <= overall_max_zoom cfgs.
Proof.
  intros Hall. rewrite Forall_forall in Hall.
  destruct (overall_min_zoom_cases cfgs) as [[Hmin H5] | [Hmin Hle]];
    destruct (overall_max_zoom_cases cfgs) as [[Hmax H18] | [Hmax Hge]].
  - lia.
  - exfalso. apply all_max_zooms_In in Hmax. destruct Hmax as (Hnz & c & Hc & Hz).
    specialize (Hall c Hc). rewrite Hz in Hall.
    destruct (cfg_min_zoom c) as [lo |] eqn:Hlo; [| contradiction].
    assert (In lo (all_min_zooms cfgs)) as Hin
      by (apply all_min_zooms_In; split; [lia | eauto]).
    rewrite Hmin in Hin. contradiction.
  - exfalso. apply all_min_zooms_In in Hmin. destruct Hmin as (Hnz & c & Hc & Hz).
    specialize (Hall c Hc). rewrite Hz in Hall.
    destruct (cfg_max_zoom c) as [hi |] eqn:Hhi; [| contradiction].
    assert (In hi (all_max_zooms cfgs)) as Hin
      by (apply all_max_zooms_In; split; [lia | eauto]).
    rewrite Hmax in Hin. contradiction.
  - apply all_min_zooms_In in Hmin. destruct Hmin as (Hnz & c & Hc & Hz).
    specialize (Hall c Hc). rewrite Hz in Hall.
    destruct (cfg_max_zoom c) as [hi |] eqn:Hhi; [| contradiction].
    assert (hi <= overall_max_zoom cfgs)
      by (apply Hge, all_max_zooms_In; split; [lia | eauto]).
    lia.
Qed.

Lemma string_app_assoc (a b c : string) : (a ++ b) ++ c = a ++ b ++ c.
Proof. induction a as [| x a IH]; cbn; [reflexivity | now rewrite IH]. Qed.

Lemma string_app_nil_r (a : string) : a ++ "" = a.
Proof. induction a as [| x a IH]; cbn; [reflexivity | now rewrite IH]. Qed.

Lemma concat_empty_cons (x : string) (xs : list string) :
  String.concat "" (x :: xs) = x ++ String.concat "" xs.
Proof. destruct xs; cbn; [now rewrite string_app_nil_r | reflexivity]. Qed.

Variable env : Env.

(** X20: the artifact is the header, then one block per entry of the
    result set, in the order of the result set and whether the entry has
    bounds or not, then the footer. *)
Theorem js_config_layers (cfgs : dict ortho_config) (b : bounds) (bs : list bounds) (zoom : Z) :
  js_config env cfgs b bs zoom
  = js_header env (center_lat b bs) (center_lng b bs) zoom
      (overall_min_zoom cfgs) (overall_max_zoom cfgs)
    ++ String.concat "" (map (fun entry => js_layer env (fst entry) (snd entry)) cfgs)
    ++ js_footer.
Proof.
  unfold js_config. rewrite <- string_app_assoc. f_equal.
  generalize (js_header env (center_lat b bs) (center_lng b bs) zoom
                (overall_min_zoom cfgs) (overall_max_zoom cfgs)).
  induction cfgs as [| [k c] d IH]; intros h.
  - cbn. now rewrite string_app_nil_r.
  - cbn [fold_left map fst snd]. rewrite IH, concat_empty_cons. apply string_app_assoc.
Qed.

End ZoomRangeFacts.

Lemma overall_zoom_range_ordered_witness :
  1 <= overall_min_zoom three_layers <= overall_max_zoom three_layers.
Proof.
  apply (overall_zoom_range_ordered three_layers).
  repeat constructor; cbn; lia.
Defined.

(** ** More on file names and the directory scan *)

Section DiscoveryMore.

(** [endswith] is true of the strings that are some prefix followed by the
    suffix. *)
Lemma endswith_spec (s suffix : string) :
  endswith s suffix = true <-> exists pre, s = pre ++ suffix.
Proof.
  induction s as [| c rest IH]; cbn [endswith].
  - rewrite orb_false_r, String.eqb_eq. split.
    + intros <-. now exists "".
    + intros (pre & H). destruct pre; [exact H | discriminate].
  - rewrite orb_true_iff, String.eqb_eq, IH. split.
    + intros [<- | (pre & ->)]; [now exists "" | now exists (String c pre)].
    + intros (pre & H). destruct pre as [| c' pre]; [now left | right].
      injection H as _ H. now exists pre.
Qed.

Lemma rfind_dot_append (s ext : string) :
  rfind_dot ext = None -> rfind_dot (s ++ String "." ext) = Some (String.length s).
Proof.
  intros Hext. induction s as [| c s IH]; cbn [append rfind_dot String.length].
  - now rewrite Hext.
  - now rewrite IH.
Qed.

Lemma substring_append (s t : string) : substring 0 (String.length s) (s ++ t) = s.
Proof.
  induction s as [| c s IH]; cbn [append String.length substring].
  - now destruct t.
  - now rewrite IH.
Qed.

Lemma string_length_append (s t : string) :
  String.length (s ++ t) = (String.length s + String.length t)%nat.
Proof. induction s as [| c s IH]; cbn; [reflexivity | now rewrite IH]. Qed.

(** The stem of a name [s.ext], where [s] is not empty and [ext] is not
    empty and has no dot, is [s], whatever dots [s] has; a name that only
    starts with its one dot is its own stem. *)
Lemma stem_strips_extension (ext : string) :
  ext <> "" -> rfind_dot ext = None ->
  stem ("." ++ ext) = "." ++ ext
  /\ forall s, s <> "" -> stem (s ++ "." ++ ext) = s.
Proof.
  intros Hne Hext. split.
  - unfold stem. change ("." ++ ext) with ("" ++ String "." ext).
    now rewrite rfind_dot_append.
  - intros s Hs. unfold stem. change ("." ++ ext) with (String "." ext).
    rewrite rfind_dot_append by exact Hext.
    rewrite string_length_append. cbn [String.length].
    assert (0 < String.length s)%nat as Hls by (destruct s; [contradiction | cbn; lia]).
    assert (0 < String.length ext)%nat as Hle by (destruct ext; [contradiction | cbn; lia]).
    replace (0 <? String.length s)%nat with true by (symmetry; apply Nat.ltb_lt; lia).
    replace (String.length s <? String.length s + S (String.length ext) - 1)%nat
      with true by (symmetry; apply Nat.ltb_lt; lia).
    cbn [andb]. apply substring_append.
Qed.

Variable env : Env.

(** X21: the files to process are the entries of the raster directory
    whose name ends in [.tif] or in [.tiff], each one as often as the
    directory lists it and no other name: they are at most as many as the
    entries of the directory. *)
Theorem geotiff_files_spec :
  (forall f, In f (geotiff_files env)
             <-> In f (listdir env (geotiff_dir env))
                 /\ exists pre, f = pre ++ ".tif" \/ f = pre ++ ".tiff")
  /\ (forall f, count_occ string_dec (geotiff_files env) f
                = if endswith f ".tif" || endswith f ".tiff"
                  then count_occ string_dec (listdir env (geotiff_dir env)) f
                  else 0%nat)
  /\ (List.length (geotiff_files env) <= List.length (listdir env (geotiff_dir env)))%nat.
Proof.
  unfold geotiff_files, glob. split; [| split].
  - intros f. rewrite in_app_iff, !filter_In, !endswith_spec. split.
    + intros [(Hin & pre & H) | (Hin & pre & H)]; (split; [exact Hin |]); exists pre; auto.
    + intros (Hin & pre & [H | H]); [left | right]; (split; [exact Hin |]); now exists pre.
  - intros f. rewrite count_occ_app.
    induction (listdir env (geotiff_dir env)) as [| g l IH]; cbn [filter count_occ].
    + now destruct (endswith f ".tif" || endswith f ".tiff").
    + destruct (string_dec g f) as [-> | Hne].
      * destruct (endswith f ".tif") eqn:Htif.
        -- rewrite (endswith_tif_not_tiff f Htif) in *. cbn [orb] in *.
           cbn [count_occ]. destruct (string_dec f f); [lia | contradiction].
        -- cbn [orb] in *. destruct (endswith f ".tiff") eqn:Htiff.
           ++ cbn [count_occ]. destruct (string_dec f f); [lia | contradiction].
           ++ exact IH.
      * destruct (endswith g ".tif"), (endswith g ".tiff"); cbn [count_occ];
          repeat match goal with
                 | |- context [string_dec g f] => destruct (string_dec g f); [contradiction |]
                 end;
          exact IH.
  - rewrite length_app.
    induction (listdir env (geotiff_dir env)) as [| g l IH]; cbn [filter List.length]; [lia |].
    destruct (endswith g ".tif") eqn:Htif.
    + rewrite (endswith_tif_not_tiff g Htif). cbn [List.length]. lia.
    + destruct (endswith g ".tiff"); cbn [List.length]; lia.
Qed.

End DiscoveryMore.


(** ** More on the loop over the files *)

Section LoopMore.

Variable env : Env.

Lemma dict_set_absent {V} (d : dict V) (k : string) (v : V) :
  ~ In k (dict_keys d) -> dict_set d k v = (d ++ [(k, v)])%list.
Proof.
  unfold dict_keys. induction d as [| [k' v'] d IH]; cbn; intros H; [reflexivity |].
  destruct (String.eqb_spec k' k) as [-> | Hne].
  - exfalso. apply H. now left.
  - f_equal. apply IH. intros Hin. apply H. now right.
Qed.

(** With stems that differ from one another and from the keys already
    there, every file adds its entry at the end of the result set. *)
Lemma process_all_order (names : list string) :
  forall cfgs d w w',
    NoDup (map stem names) ->
    (forall g, In g names -> ~ In (stem g) (dict_keys cfgs)) ->
    process_all env names cfgs w = (Ok d, w') ->
    map (fun e => (fst e, cfg_source_file (snd e))) d
    = (map (fun e => (fst e, cfg_source_file (snd e))) cfgs
       ++ map (fun n => (stem n, n)) names)%list.
Proof.
  induction names as [| name rest IH]; intros cfgs d w w' Hnd Hnew Hrun.
  - cbn in Hrun. injection Hrun as <- <-. now rewrite app_nil_r.
  - apply process_all_cons_inv in Hrun. destruct Hrun as (d1 & w1 & Hfile & Hrest).
    apply process_file_inv in Hfile. destruct Hfile as (r & _ & ->).
    rewrite dict_set_absent in Hrest by (apply Hnew; now left).
    inversion Hnd as [| ? ? Hnotin Hnd']; subst.
    assert (forall g, In g rest ->
                      ~ In (stem g)
                          (dict_keys (cfgs ++ [(stem name, ortho_config_of r name)])%list))
      as Hnew'.
    { intros g Hg Hin. unfold dict_keys in Hin. rewrite map_app in Hin.
      apply in_app_or in Hin. destruct Hin as [Hin | [Heq | []]].
      - apply (Hnew g (or_intror Hg)). exact Hin.
      - cbn in Heq. apply Hnotin. rewrite Heq. now apply in_map. }
    rewrite (IH _ _ _ _ Hnd' Hnew' Hrest).
    rewrite map_app. cbn [map fst snd]. rewrite ortho_config_of_source.
    now rewrite <- app_assoc.
Qed.


(** X23: a raster [s.tif] or [s.tiff], with [s] not empty, becomes the
    layer [s]: its tiles are asked for in the directory [s] of the tiles
    directory, and its entry is stored under the key [s]. *)
Theorem folder_name_of_raster (s ext : string) (cfgs : dict ortho_config) (w : world) :
  s <> "" ->
  ext = "tif" \/ ext = "tiff" ->
  let name := s ++ "." ++ ext in
  process_file env cfgs name w
  = match generate_tiles env (path_div (geotiff_dir env) name) (tiles_dir env) s w with
    | (Ok r, w') => (Ok (dict_set cfgs s (ortho_config_of r name)), w')
    | (Raise e, w') => (Raise e, w')
    end.
Proof.
  intros Hs Hext name. rewrite process_file_spec.
  assert (stem name = s) as ->; [| reflexivity].
  destruct Hext as [-> | ->];
    (apply stem_strips_extension; [discriminate | reflexivity | exact Hs]).
Qed.

Lemma loop_entry_incl (names names' : list string) (k : string) (c : ortho_config) :
  incl names names' -> loop_entry names k c -> loop_entry names' k c.
Proof.
  intros Hincl (Hk & Hin & Hc). split; [exact Hk |]. split; [apply Hincl, Hin | exact Hc].
Qed.

Lemma generate_tiles_zooms (path out folder : string) (b : bounds) (lo hi : Z)
  (w w' : world) :
  generate_tiles env path out folder w = (Ok (Some (b, lo, hi)), w') ->
  lo <= hi /\ 1 <= hi <= 22.
Proof.
  intros H. apply generate_tiles_some in H.
  destruct H as (o & size & px & iw & t & _ & _ & _ & Hzoom & _).
  rewrite calculate_zoom_levels_eq in Hzoom.
  destruct (optimal_zoom px) as [oz | e]; [| discriminate].
  cbn in Hzoom. injection Hzoom as Hrange.
  pose proof (zoom_range_of_ordered (py_int oz)) as Hord.
  pose proof (zoom_range_of_upper (py_int oz)) as [Hup _].
  rewrite Hrange in Hord, Hup. cbn [fst snd] in Hord, Hup. lia.
Qed.

Lemma process_all_loop_entries (names : list string) :
  forall seen cfgs d w w',
    process_all env names cfgs w = (Ok d, w') ->
    (forall k c, In (k, c) cfgs -> loop_entry seen k c) ->
    forall k c, In (k, c) d -> loop_entry (seen ++ names) k c.
Proof.
  induction names as [| name rest IH]; intros seen cfgs d w w' Hrun Hinv k c Hin.
  - cbn in Hrun. injection Hrun as <- <-. rewrite app_nil_r. now apply Hinv.
  - apply process_all_cons_inv in Hrun. destruct Hrun as (d1 & w1 & Hfile & Hrest).
    apply process_file_inv in Hfile. destruct Hfile as (r & Hgen & ->).
    replace (seen ++ name :: rest)%list with ((seen ++ [name]) ++ rest)%list
      by now rewrite <- app_assoc.
    apply (IH (seen ++ [name])%list _ d w1 w' Hrest); [| exact Hin].
    intros k0 c0 Hin0. apply dict_set_In in Hin0. destruct Hin0 as [[= -> ->] | Hin0].
    + unfold loop_entry. rewrite ortho_config_of_source.
      split; [reflexivity |]. split; [apply in_or_app; right; now left |].
      destruct r as [[[b lo] hi] |]; [right | now left].
      exists b, lo, hi. split; [reflexivity |].
      exact (generate_tiles_zooms _ _ _ b lo hi w w1 Hgen).
    + apply (loop_entry_incl seen); [| now apply Hinv].
      intros g Hg. apply in_or_app. now left.
Qed.

(** X24: every entry of the result set of the loop is stored under the
    stem of its source file, which is one of the files; its bounds and zoom
    levels are all missing, or all there with [min_zoom <= max_zoom] and
    [1 <= max_zoom <= 22]. *)
Theorem result_set_entries (names : list string) (d : dict ortho_config) (w w' : world) :
  process_all env names [] w = (Ok d, w') ->
  forall k c, In (k, c) d -> loop_entry names k c.
Proof.
  intros Hrun k c Hin.
  exact (process_all_loop_entries names [] [] d w w' Hrun (fun _ _ H => match H with end)
           k c Hin).
Qed.

(** X25: on the result set of the loop, the maximum zoom of the viewer is
    between 1 and 22 and its minimum zoom is at most 22. *)
Theorem pipeline_zoom_range (names : list string) (d : dict ortho_config) (w w' : world) :
  process_all env names [] w = (Ok d, w') ->
  1 <= overall_max_zoom d <= 22 /\ overall_min_zoom d <= 22.
Proof.
  intros Hrun.
  assert (forall c, In c (dict_values d) ->
                    (cfg_min_zoom c = None /\ cfg_max_zoom c = None)
                    \/ exists lo hi, cfg_min_zoom c = Some lo /\ cfg_max_zoom c = Some hi
                                     /\ lo <= hi /\ 1 <= hi <= 22) as Hentries.
  { intros c Hc. unfold dict_values in Hc. apply in_map_iff in Hc.
    destruct Hc as ([k c'] & Heq & Hin). cbn in Heq. subst c'.
    destruct (process_all_loop_entries names [] [] d w w' Hrun
                (fun _ _ H => match H with end) k c Hin) as (_ & _ & [-> | Hsome]).
    - now left.
    - destruct Hsome as (b & lo & hi & -> & Hle & Hhi). right. now exists lo, hi. }
  split.
  - destruct (overall_max_zoom_cases d) as [[_ ->] | [Hin _]]; [lia |].
    apply all_max_zooms_In in Hin. destruct Hin as (_ & c & Hc & Hz).
    destruct (Hentries c Hc) as [[_ Hnone] | (lo & hi & _ & Hhi & _ & Hrange)];
      rewrite Hz in *; [discriminate |].
    injection Hhi as ->. exact Hrange.
  - destruct (overall_min_zoom_cases d) as [[_ ->] | [Hin _]]; [lia |].
    apply all_min_zooms_In in Hin. destruct Hin as (_ & c & Hc & Hz).
    destruct (Hentries c Hc) as [[Hnone _] | (lo & hi & Hlo & _ & Hle & Hrange)];
      rewrite Hz in *; [discriminate |].
    injection Hlo as ->. lia.
Qed.

(** The directories that the loop creates are directories of the layers
    of the files. *)
Lemma process_all_dirs (names : list string) :
  forall cfgs w,
    exists created,
      dirs (snd (process_all env names cfgs w)) = (created ++ dirs w)%list
      /\ forall p, In p created ->
                   exists f, In f names /\ p = os_path_join (tiles_dir env) (stem f).
Proof.
  induction names as [| name rest IH]; intros cfgs w.
  - exists []. split; [reflexivity | intros p []].
  - cbn [process_all]. unfold bind. rewrite process_file_spec.
    pose proof (generate_tiles_world env (path_div (geotiff_dir env) name) (tiles_dir env)
                  (stem name) w) as (_ & Hdirs & _).
    destruct (generate_tiles env (path_div (geotiff_dir env) name) (tiles_dir env)
                (stem name) w) as [[r | e] w1]; cbn [snd] in *.
    + destruct (IH (dict_set cfgs (stem name) (ortho_config_of r name)) w1)
        as (created & Hc & Hfrom).
      destruct Hdirs as [Hd | Hd]; rewrite Hd in Hc.
      * exists created. split; [exact Hc |].
        intros p Hp. destruct (Hfrom p Hp) as (f & Hf & ->). exists f. split; [now right | auto].
      * exists (created ++ [os_path_join (tiles_dir env) (stem name)])%list.
        split; [now rewrite <- app_assoc |].
        intros p Hp. apply in_app_or in Hp. destruct Hp as [Hp | [<- | []]].
        -- destruct (Hfrom p Hp) as (f & Hf & ->). exists f. split; [now right | auto].
        -- exists name. split; [now left | reflexivity].
    + destruct Hdirs as [Hd | Hd]; rewrite Hd.
      * exists []. split; [reflexivity | intros p []].
      * exists [os_path_join (tiles_dir env) (stem name)]. split; [reflexivity |].
        intros p [<- | []]. exists name. split; [now left | reflexivity].
Qed.

End LoopMore.


Lemma folder_name_of_raster_witness :
  fst (process_file env_info_fails [] ("site.A" ++ "." ++ "tiff") empty_world)
  = Ok [("site.A", absent_config "site.A.tiff")].
Proof.
  rewrite (folder_name_of_raster env_info_fails "site.A" "tiff" [] empty_world).
  - reflexivity.
  - discriminate.
  - now right.
Defined.

Lemma result_set_entries_witness :
  loop_entry ["siteA.tif"] "siteA" (mkConfig (Some (mkBounds (-1) 0 1 2)) (Some 12) (Some 22)
                                      "siteA.tif").
Proof.
  assert (exists w',
             process_all (env_one_raster (fun _ => "") (fun _ => "")) ["siteA.tif"] []
               empty_world
             = (Ok [("siteA", mkConfig (Some (mkBounds (-1) 0 1 2)) (Some 12) (Some 22)
                                "siteA.tif")], w')) as (w' & Hrun).
  { cbn [process_all]. unfold bind. rewrite process_file_spec.
    rewrite (generate_tiles_success (env_one_raster (fun _ => "") (fun _ => ""))
               _ _ _ "{...}" "" (mkBounds (-1) 0 1 2) [1024; 1024] (1 / 10)%R 1024 12 22);
      [eexists; reflexivity | reflexivity | reflexivity | reflexivity
       | apply calculate_zoom_levels_10cm | reflexivity | reflexivity]. }
  apply (result_set_entries (env_one_raster (fun _ => "") (fun _ => "")) ["siteA.tif"]
           _ empty_world w' Hrun).
  now left.
Defined.

Lemma pipeline_zoom_range_witness :
  1 <= overall_max_zoom
         [("siteA", mkConfig (Some (mkBounds (-1) 0 1 2)) (Some 12) (Some 22) "siteA.tif")]
    <= 22
  /\ overall_min_zoom
       [("siteA", mkConfig (Some (mkBounds (-1) 0 1 2)) (Some 12) (Some 22) "siteA.tif")]
     <= 22.
Proof.
  assert (exists w',
             process_all (env_one_raster (fun _ => "") (fun _ => "")) ["siteA.tif"] []
               empty_world
             = (Ok [("siteA", mkConfig (Some (mkBounds (-1) 0 1 2)) (Some 12) (Some 22)
                                "siteA.tif")], w')) as (w' & Hrun).
  { cbn [process_all]. unfold bind. rewrite process_file_spec.
    rewrite (generate_tiles_success (env_one_raster (fun _ => "") (fun _ => ""))
               _ _ _ "{...}" "" (mkBounds (-1) 0 1 2) [1024; 1024] (1 / 10)%R 1024 12 22);
      [eexists; reflexivity | reflexivity | reflexivity | reflexivity
       | apply calculate_zoom_levels_10cm | reflexivity | reflexivity]. }
  exact (pipeline_zoom_range (env_one_raster (fun _ => "") (fun _ => "")) ["siteA.tif"]
           _ empty_world w' Hrun).
Defined.

(** ** More on the batch orchestrator *)

Section MainMore.

Variable env : Env.

Lemma keeps_files_check_gdal : keeps_files (check_gdal env).
Proof. unfold check_gdal. repeat keeps_files_step. Qed.

Lemma keeps_dirs_check_gdal : keeps_dirs (check_gdal env).
Proof. unfold check_gdal. repeat keeps_dirs_step. Qed.

Lemma keeps_dirs_print_found (names : list string) :
  forall i, keeps_dirs (print_found i names).
Proof.
  induction names as [| name rest IH]; intros i; cbn [print_found].
  - apply keeps_dirs_ret.
  - apply keeps_dirs_bind; [apply keeps_dirs_print | intros _; apply IH].
Qed.

Lemma world_at_loop_dirs (w : world) : dirs (world_at_loop env w) = dirs w.
Proof. unfold world_at_loop. now rewrite keeps_dirs_print_found. Qed.

(** The pre-flight check raises when one of its commands does not exit
    with status 0. *)
Lemma check_gdal_unavailable (w : world) :
  gdal_available env = false -> exists e, fst (check_gdal env w) = Raise e.
Proof.
  unfold gdal_available, check_gdal, try_except, bind, run_checked.
  destruct (subprocess_run env ["gdalinfo"; "--version"]);
    destruct (subprocess_run env ["gdal2tiles.py"; "--help"]);
    try discriminate; intros _; cbn; eauto.
Qed.

(** A run whose pre-flight check does not pass ends there. *)
Lemma main_preflight_raises (w : world) :
  gdal_available env = false ->
  exists e w1, main env w = (Raise e, w1) /\ files w1 = files w /\ dirs w1 = dirs w.
Proof.
  intros Hgdal. unfold main. rewrite !bind_print. unfold bind at 1.
  set (w0 := mkWorld _ _ _).
  destruct (check_gdal_unavailable w0 Hgdal) as (e & He).
  pose proof (keeps_files_check_gdal w0) as Hf.
  pose proof (keeps_dirs_check_gdal w0) as Hd.
  destruct (check_gdal env w0) as [[[] | e'] w1]; [discriminate |].
  exists e', w1. cbn [snd] in Hf, Hd. repeat split; assumption.
Qed.

(** What the synthesizer does to the files and the directories, and the
    exceptions that leave it. *)
Lemma update_map_config_world (cfgs : dict ortho_config) (out : string) (w : world) :
  let r := update_map_config env cfgs out w in
  dirs (snd r) = dirs w
  /\ (files (snd r) = files w
      \/ exists content, files (snd r) = (js_path out, content) :: files w)
  /\ (fst r = Ok tt \/ fst r = Raise ValueError \/ fst r = Raise OSError)
  /\ (fst r <> Ok tt -> files (snd r) = files w).
Proof.
  cbn zeta. destruct (all_bounds cfgs) as [| b bs] eqn:Hb.
  - rewrite update_map_config_no_bounds by exact Hb. effects_done.
  - destruct (Rle_dec (max_range b bs) 0) as [Hle | Hgt].
    + rewrite (update_map_config_raises env cfgs out b bs ValueError w Hb
                 (initial_zoom_degenerate b bs Hle)).
      effects_done.
    + assert (0 < max_range b bs)%R as Hpos by lra.
      pose proof (initial_zoom_positive b bs Hpos) as Hz.
      destruct (open_ok env (js_path out)) eqn:Hopen.
      * rewrite (update_map_config_bounds env cfgs out b bs _ w Hb Hz Hopen).
        cbn [fst snd dirs files]. split; [reflexivity |]. split; [right; eauto |].
        split; [now left | intros H; now contradiction H].
      * rewrite (update_map_config_cannot_open env cfgs out b bs _ w Hb Hz Hopen).
        effects_done.
Qed.


(** X27: a run that ends without an exception passed the pre-flight
    check, found some file, and went through the loop and the synthesizer
    without an exception. *)
Theorem main_ok_inv (w : world) :
  fst (main env w) = Ok tt ->
  gdal_available env = true
  /\ geotiff_files env <> []
  /\ exists d w2,
       process_all env (geotiff_files env) [] (world_at_loop env w) = (Ok d, w2)
       /\ forall w3, fst (update_map_config env d (project_dir env) w3) = Ok tt.
Proof.
  intros Hok.
  destruct (gdal_available env) eqn:Hgdal.
  - destruct (list_eq_dec string_dec (geotiff_files env) []) as [Hnil | Hsome].
    + exfalso. revert Hok. unfold main. rewrite !bind_print.
      rewrite (bind_ok _ _ _ _ _ (check_gdal_available env _ Hgdal)).
      rewrite Hnil. rewrite !bind_print. discriminate.
    + split; [reflexivity |]. split; [exact Hsome |].
      rewrite (main_processing env w Hgdal Hsome) in Hok.
      destruct (process_all env (geotiff_files env) [] (world_at_loop env w))
        as [[d | e] w2]; [| discriminate].
      exists d, w2. split; [reflexivity |]. intros w3.
      set (w2' := mkWorld _ (dirs w2) (files w2)) in Hok.
      rewrite (uniform_result _ w3 w2' (uniform_update_map_config env d _)).
      destruct (update_map_config env d (project_dir env) w2') as [[[] | e] w4];
        [reflexivity | discriminate].
  - exfalso. destruct (main_preflight_raises w Hgdal) as (e & w1 & Hmain & _).
    rewrite Hmain in Hok. discriminate.
Qed.

(** X28: when the loop ends with some layer that has bounds, and the
    extent is not positive or the artifact cannot be opened, the exception
    of the synthesizer leaves the run after the tiles were generated: the
    exit status is 1 and no file is written. *)
Theorem main_synthesizer_raises (w w2 : world) (d : dict ortho_config)
  (b : bounds) (bs : list bounds) :
  gdal_available env = true ->
  geotiff_files env <> [] ->
  process_all env (geotiff_files env) [] (world_at_loop env w) = (Ok d, w2) ->
  all_bounds d = b :: bs ->
  (max_range b bs <= 0)%R \/ open_ok env (js_path (project_dir env)) = false ->
  exists e,
    main env w
    = (Raise e,
       mkWorld (stdout w2 ++ ["
Updating map configuration..."]) (dirs w2) (files w2))
    /\ (e = ValueError \/ e = OSError)
    /\ exit_status (fst (main env w)) = 1
    /\ files (snd (main env w)) = files w.
Proof.
  intros Hgdal Hsome Hrun Hb Hcause.
  pose proof (keeps_files_process_all env (geotiff_files env) [] (world_at_loop env w)) as Hk.
  rewrite Hrun, world_at_loop_files in Hk. cbn [snd] in Hk.
  rewrite (main_processing env w Hgdal Hsome), Hrun.
  destruct (Rle_dec (max_range b bs) 0) as [Hle | Hgt].
  - exists ValueError.
    rewrite (update_map_config_raises env d _ b bs ValueError _ Hb
               (initial_zoom_degenerate b bs Hle)).
    cbn [fst snd files exit_status]. repeat split; auto.
  - destruct Hcause as [Hle | Hopen]; [contradiction |].
    assert (0 < max_range b bs)%R as Hpos by lra.
    exists OSError.
    rewrite (update_map_config_cannot_open env d _ b bs _ _ Hb
               (initial_zoom_positive b bs Hpos) Hopen).
    cbn [fst snd files exit_status]. repeat split; auto.
Qed.

(** X29: when a pre-flight command neither exits with status 0 nor with
    another status, its program is not installed: the
    [FileNotFoundError] is not what the handler catches, and the run ends
    with it, with exit status 1 and without the diagnostic. *)
Theorem main_preflight_not_installed (w : world) :
  gdal_available env = false ->
  gdal_exits_nonzero env = false ->
  main env w
  = (Raise FileNotFoundError,
     mkWorld (stdout w ++ ["GeoTIFF to Web Tiles Generator"; string_repeat "=" 40])
             (dirs w) (files w))
  /\ exit_status (fst (main env w)) = 1.
Proof.
  intros Havail Hnonzero.
  assert (forall w0, check_gdal env w0 = (Raise FileNotFoundError, w0)) as Hcheck.
  { intros w0. revert Havail Hnonzero.
    unfold gdal_available, gdal_exits_nonzero, check_gdal, try_except, bind, run_checked.
    destruct (subprocess_run env ["gdalinfo"; "--version"]); try discriminate;
      [| reflexivity].
    destruct (subprocess_run env ["gdal2tiles.py"; "--help"]); try discriminate.
    reflexivity. }
  assert (main env w
          = (Raise FileNotFoundError,
             mkWorld (stdout w ++ ["GeoTIFF to Web Tiles Generator"; string_repeat "=" 40])
                     (dirs w) (files w))) as Hmain.
  { unfold main. rewrite !bind_print. rewrite (bind_raise _ _ _ _ _ (Hcheck _)).
    cbn [stdout dirs files]. now rewrite <- !app_assoc. }
  split; [exact Hmain | now rewrite Hmain].
Qed.

End MainMore.

Lemma main_ok_inv_witness :
  gdal_available env_info_fails = true /\ geotiff_files env_info_fails <> [].
Proof.
  destruct (main_ok_inv env_info_fails empty_world eq_refl) as (Hgdal & Hfiles & _).
  split; [exact Hgdal | exact Hfiles].
Defined.

Lemma main_synthesizer_raises_witness :
  exit_status (fst (main env_unwritable empty_world)) = 1
  /\ files (snd (main env_unwritable empty_world)) = [].
Proof.
  assert (exists w2,
             process_all env_unwritable (geotiff_files env_unwritable) []
               (world_at_loop env_unwritable empty_world)
             = (Ok [("siteA", mkConfig (Some (mkBounds (-1) 0 1 2)) (Some 12) (Some 22)
                                "siteA.tif")], w2)) as (w2 & Hrun).
  { change (geotiff_files env_unwritable) with ["siteA.tif"].
    cbn [process_all]. unfold bind. rewrite process_file_spec.
    rewrite (generate_tiles_success env_unwritable
               _ _ _ "{...}" "" (mkBounds (-1) 0 1 2) [1024; 1024] (1 / 10)%R 1024 12 22);
      [eexists; reflexivity | reflexivity | reflexivity | reflexivity
       | apply calculate_zoom_levels_10cm | reflexivity | reflexivity]. }
  destruct (main_synthesizer_raises env_unwritable empty_world w2 _ (mkBounds (-1) 0 1 2) []
              eq_refl ltac:(discriminate) Hrun eq_refl (or_intror eq_refl))
    as (e & _ & _ & Hexit & Hfiles).
  split; [exact Hexit | exact Hfiles].
Defined.

Lemma main_preflight_not_installed_witness :
  exit_status (fst (main env_not_installed empty_world)) = 1.
Proof.
  apply (main_preflight_not_installed env_not_installed empty_world); reflexivity.
Defined.
